(** * YED.Tilemap.Layer: a shallow embedding of [src/Tilemap/Layer.js]

    The layer renderer of the tilemap plugin composes tiles, objects and
    images on a backing bitmap and, for looping maps and parallax planes,
    hands the result to a tiling sprite whose scroll origin is advanced on
    every frame.  This file embeds the methods of [Layer.prototype] as
    functions on an explicit object state and proves what the
    specification says about them.

    Conventions of the embedding:
    - a JavaScript number that the layer computes from indices, sizes and
      speeds is an exact integer, [NaN] or an infinity ([num]); the
      coordinates of an object, which Tiled stores with fractions, are
      IEEE 754 doubles ([Js.double], the binary64 numbers of the kernel):
      [y - height] is the subtraction of doubles, rounded to nearest as
      the processor does it, and [Math.round] takes the exact value of
      its argument to an integer.  The sign of zero is not modelled;
    - a method that can raise a [TypeError] runs in the monad [M], which
      threads the layer and keeps the state reached when the exception is
      thrown;
    - the host engine (Sprite, Bitmap, TilingSprite, Graphics, $gameMap,
      ImageManager) and the Tileset class are collaborators: the ambient
      ones are read from a record [Ambient], the tileset is an interface
      ([TilesetOps]). *)

From Stdlib Require Import PrimFloat.
From Stdlib Require SpecFloat FloatOps.
From Stdlib Require Import ZArith QArith Qround Ascii Lia.
From stdpp Require Import base option list strings gmap pretty.

(** A decimal literal denotes the nearest double, as in JavaScript. *)
Set Warnings "-inexact-float".

Open Scope Z_scope.

(** ** JavaScript numbers and values *)

Module Js.

(** The numbers the layer computes with. *)
Inductive num : Type :=
| Fin (z : Z)
| NaN
| PosInf
| NegInf.

#[global] Instance num_eq_dec : EqDecision num.
Proof. solve_decision. Defined.

(** [ToBoolean] on a number: zero and NaN are falsy. *)
Definition num_truthy (n : num) : bool :=
  match n with
  | Fin z => negb (z =? 0)
  | NaN => false
  | PosInf | NegInf => true
  end.

(** [a + b]. *)
Definition add (a b : num) : num :=
  match a, b with
  | NaN, _ | _, NaN => NaN
  | Fin x, Fin y => Fin (x + y)
  | PosInf, NegInf | NegInf, PosInf => NaN
  | PosInf, _ | _, PosInf => PosInf
  | NegInf, _ | _, NegInf => NegInf
  end.

(** [a * b]. *)
Definition mul (a b : num) : num :=
  match a, b with
  | NaN, _ | _, NaN => NaN
  | Fin x, Fin y => Fin (x * y)
  | Fin x, PosInf | PosInf, Fin x =>
      if x =? 0 then NaN else if 0 <? x then PosInf else NegInf
  | Fin x, NegInf | NegInf, Fin x =>
      if x =? 0 then NaN else if 0 <? x then NegInf else PosInf
  | PosInf, PosInf | NegInf, NegInf => PosInf
  | PosInf, NegInf | NegInf, PosInf => NegInf
  end.

(** [a % b]: the remainder has the sign of the dividend ([Z.rem]); a zero
    divisor or an infinite dividend gives NaN. *)
Definition rem (a b : num) : num :=
  match a, b with
  | NaN, _ | _, NaN => NaN
  | PosInf, _ | NegInf, _ => NaN
  | Fin x, Fin y => if y =? 0 then NaN else Fin (Z.rem x y)
  | Fin x, PosInf | Fin x, NegInf => Fin x
  end.

(** [Math.floor(a / b)]. *)
Definition floor_div (a b : num) : num :=
  match a, b with
  | NaN, _ | _, NaN => NaN
  | Fin x, Fin y =>
      if y =? 0
      then (if x =? 0 then NaN else if 0 <? x then PosInf else NegInf)
      else Fin (x / y)
  | Fin _, PosInf | Fin _, NegInf => Fin 0
  | PosInf, Fin y => if 0 <=? y then PosInf else NegInf
  | NegInf, Fin y => if 0 <=? y then NegInf else PosInf
  | PosInf, PosInf | PosInf, NegInf | NegInf, PosInf | NegInf, NegInf => NaN
  end.

(** [Math.round(q)]: the nearest integer, halves going up. *)
Definition round (q : Q) : Z := Qfloor (q + (1 # 2))%Q.

(** *** Doubles *)

(** A number with a fraction: an IEEE 754 binary64 value. *)
Definition double : Set := PrimFloat.float.

(** [a - b] on doubles: the exact difference rounded to the nearest
    double, ties to even. *)
Definition sub (a b : double) : double := PrimFloat.sub a b.

(** The exact value of the double with sign [s], mantissa [m] and
    exponent [e]: plus or minus [m * 2^e]. *)
Definition finite_value (s : bool) (m : positive) (e : Z) : Q :=
  let n := if s then Z.neg m else Z.pos m in
  if 0 <=? e then inject_Z (n * 2 ^ e) else n # Z.to_pos (2 ^ (- e)).

(** The exact value of a double that is neither NaN nor infinite. *)
Definition double_value (f : double) : option Q :=
  match FloatOps.Prim2SF f with
  | SpecFloat.S754_zero _ => Some (inject_Z 0)
  | SpecFloat.S754_finite s m e => Some (finite_value s m e)
  | SpecFloat.S754_infinity _ | SpecFloat.S754_nan => None
  end.

(** [Math.round(f)] on a double: NaN and the infinities are returned as
    they are, a finite value goes to the nearest integer, halves going up
    (towards +Infinity).  The result is computed from the exact value of
    [f], not from [f + 0.5] in doubles: [Math.round(0.49999999999999994)]
    is 0. *)
Definition Math_round (f : double) : num :=
  match FloatOps.Prim2SF f with
  | SpecFloat.S754_zero _ => Fin 0
  | SpecFloat.S754_finite s m e => Fin (round (finite_value s m e))
  | SpecFloat.S754_infinity false => PosInf
  | SpecFloat.S754_infinity true => NegInf
  | SpecFloat.S754_nan => NaN
  end.

(** The values a Tiled property can hold (and [undefined] for a missing
    key). *)
Inductive val : Type :=
| VUndefined
| VNull
| VBool (b : bool)
| VNum (n : num)
| VStr (s : string).

#[global] Instance val_eq_dec : EqDecision val.
Proof. solve_decision. Defined.

(** [ToBoolean], written [!!v] in the source. *)
Definition truthy (v : val) : bool :=
  match v with
  | VUndefined | VNull => false
  | VBool b => b
  | VNum n => num_truthy n
  | VStr s => negb (String.eqb s "")
  end.

(** [ToString]; an integer prints as its decimal digits (which is what
    JavaScript does below 10^21). *)
Definition to_string (v : val) : string :=
  match v with
  | VUndefined => "undefined"
  | VNull => "null"
  | VBool true => "true"
  | VBool false => "false"
  | VNum (Fin z) => pretty z
  | VNum NaN => "NaN"
  | VNum PosInf => "Infinity"
  | VNum NegInf => "-Infinity"
  | VStr s => s
  end.

(** *** parseInt *)

Definition is_white_space (c : Ascii.ascii) : bool :=
  let n := Z.of_N (Ascii.N_of_ascii c) in
  ((9 <=? n) && (n <=? 13)) || (n =? 32).

Fixpoint skip_white_space (s : string) : string :=
  match s with
  | String c s' => if is_white_space c then skip_white_space s' else s
  | EmptyString => s
  end.

(** The value of a character as a digit, letters counting from ten. *)
Definition digit_value (c : Ascii.ascii) : option Z :=
  let n := Z.of_N (Ascii.N_of_ascii c) in
  if (48 <=? n) && (n <=? 57) then Some (n - 48)
  else if (97 <=? n) && (n <=? 122) then Some (n - 97 + 10)
  else if (65 <=? n) && (n <=? 90) then Some (n - 65 + 10)
  else None.

(** Reads the longest prefix of radix-[R] digits; [acc] is [None] until a
    digit has been read. *)
Fixpoint parse_digits (R : Z) (s : string) (acc : option Z) : option Z :=
  match s with
  | String c s' =>
      match digit_value c with
      | Some d =>
          if d <? R
          then parse_digits R s' (Some (default 0 acc * R + d))
          else acc
      | None => acc
      end
  | EmptyString => acc
  end.

Definition strip_sign (s : string) : Z * string :=
  match s with
  | String "-"%char s' => (-1, s')
  | String "+"%char s' => (1, s')
  | _ => (1, s)
  end.

Definition strip_hex_prefix (s : string) : Z * string :=
  match s with
  | String "0"%char (String "x"%char s') => (16, s')
  | String "0"%char (String "X"%char s') => (16, s')
  | _ => (10, s)
  end.

(** [parseInt(v)] with no radix argument. *)
Definition parseInt (v : val) : num :=
  let '(sign, s1) := strip_sign (skip_white_space (to_string v)) in
  let '(R, s2) := strip_hex_prefix s1 in
  match parse_digits R s2 None with
  | Some m => Fin (sign * m)
  | None => NaN
  end.

(** [s.toLowerCase()] on ASCII text. *)
Definition lower_char (c : Ascii.ascii) : Ascii.ascii :=
  let n := Ascii.N_of_ascii c in
  if ((65 <=? n) && (n <=? 90))%N then Ascii.ascii_of_N (n + 32) else c.

Fixpoint toLowerCase (s : string) : string :=
  match s with
  | String c s' => String (lower_char c) (toLowerCase s')
  | EmptyString => EmptyString
  end.

End Js.

(** ** Collaborators of the layer *)

(** A bitmap handed out by the image loader: the file it was read from
    and its pixel size. *)
Record Image : Type := {
  img_name : string;
  img_width : Z;
  img_height : Z
}.

#[global] Instance Image_eq_dec : EqDecision Image.
Proof. solve_decision. Defined.

(** The arguments of one [Bitmap.blt(source, sx, sy, sw, sh, dx, dy)]
    call: the source bitmap (by the name of its image) and the two
    rectangles' corners and size. *)
Record BltArgs : Type := {
  blt_source : string;
  blt_sx : Js.num;
  blt_sy : Js.num;
  blt_sw : Js.num;
  blt_sh : Js.num;
  blt_dx : Js.num;
  blt_dy : Js.num
}.

#[global] Instance BltArgs_eq_dec : EqDecision BltArgs.
Proof. solve_decision. Defined.

(** Modelled from the spec: the host engine's [Bitmap] class is not part
    of the source.  After §3 ("the composited bitmap, once created, has
    fixed dimensions") a bitmap has the size it was created with; its
    pixels are represented by the sequence of block transfers drawn on
    it. *)
Record Bitmap : Type := {
  bmp_width : Z;
  bmp_height : Z;
  bmp_blits : list BltArgs
}.

#[global] Instance Bitmap_eq_dec : EqDecision Bitmap.
Proof. solve_decision. Defined.

(** [new Bitmap(width, height)] *)
Definition new_Bitmap (width height : Z) : Bitmap :=
  {| bmp_width := width; bmp_height := height; bmp_blits := [] |}.

(** [dest.blt(...)] *)
Definition blt (dest : Bitmap) (params : BltArgs) : Bitmap :=
  {| bmp_width := bmp_width dest;
     bmp_height := bmp_height dest;
     bmp_blits := bmp_blits dest ++ [params] |}.

(** The bitmap objects a layer can refer to: its own backing bitmap (the
    object held in the field [_layerBitmap]; there is at most one per
    layer, so the reference needs no address) or an image of the loader.
    The node's content and a tiling sprite's texture hold such references,
    which is how they share the backing bitmap with the layer. *)
Inductive BitmapRef : Type :=
| LayerBitmapRef
| ImageRef (img : Image).

#[global] Instance BitmapRef_eq_dec : EqDecision BitmapRef.
Proof. solve_decision. Defined.

(** Modelled from the spec: the host engine's [TilingSprite] (the spec's
    "tiling surface") is not part of the source.  It has a texture, a
    frame set by [move] and a scroll origin, which starts at (0, 0). *)
Record TilingSprite : Type := {
  ts_bitmap : option BitmapRef;
  ts_x : Z;
  ts_y : Z;
  ts_width : Z;
  ts_height : Z;
  origin_x : Js.num;
  origin_y : Js.num
}.

#[global] Instance TilingSprite_eq_dec : EqDecision TilingSprite.
Proof. solve_decision. Defined.

(** [new TilingSprite(bitmap)] *)
Definition new_TilingSprite (bitmap : option BitmapRef) : TilingSprite :=
  {| ts_bitmap := bitmap; ts_x := 0; ts_y := 0; ts_width := 0; ts_height := 0;
     origin_x := Js.Fin 0; origin_y := Js.Fin 0 |}.

(** [sprite.move(x, y, width, height)] *)
Definition move (x y width height : Z) (s : TilingSprite) : TilingSprite :=
  {| ts_bitmap := ts_bitmap s; ts_x := x; ts_y := y;
     ts_width := width; ts_height := height;
     origin_x := origin_x s; origin_y := origin_y s |}.

Definition set_origin_x (v : Js.num) (s : TilingSprite) : TilingSprite :=
  {| ts_bitmap := ts_bitmap s; ts_x := ts_x s; ts_y := ts_y s;
     ts_width := ts_width s; ts_height := ts_height s;
     origin_x := v; origin_y := origin_y s |}.

Definition set_origin_y (v : Js.num) (s : TilingSprite) : TilingSprite :=
  {| ts_bitmap := ts_bitmap s; ts_x := ts_x s; ts_y := ts_y s;
     ts_width := ts_width s; ts_height := ts_height s;
     origin_x := origin_x s; origin_y := v |}.

(** What the layer reads from its surroundings: the wraparound of the
    active map ([$gameMap]), the viewport ([Graphics]) and the image
    loader ([ImageManager.loadParserParallax]). *)
Record Ambient : Type := {
  gameMap_isLoopHorizontal : bool;
  gameMap_isLoopVertical : bool;
  Graphics_width : Z;
  Graphics_height : Z;
  loadParserParallax : string -> Z -> Image
}.

(** The two operations the layer calls on a tileset. *)
Class TilesetOps (T : Type) : Type := {
  isInTileset : T -> Z -> bool;
  getBlockTransferParams : T -> Z -> Js.num -> Js.num -> BltArgs
}.

(** ** Layer data (the Tiled JSON of one layer) *)

Module Obj.

(** An entry of [data.objects]: the tile and the position and height in
    pixels, which are doubles. *)
Record t : Type := {
  gid : Z;
  x : Js.double;
  y : Js.double;
  height : Js.double
}.

End Obj.

Module Data.

Record t : Type := {
  type : string;
  width : option Z;
  height : option Z;
  data : option (list Z);
  objects : option (list Obj.t);
  image : string;
  x : Z;
  y : Z;
  visible : bool;
  properties : option (gmap string Js.val)
}.

End Data.

(** ** The layer object *)

Record Layer (T : Type) : Type := {
  _data : Data.t;
  _tilesets : list T;
  _tileWidth : Z;
  _tileHeight : Z;
  _gridHorz : option Z;
  _gridVert : option Z;
  (** inherited from Sprite: *)
  visible : bool;
  bitmap : option BitmapRef;
  children : list nat;
  (** own fields: *)
  _layerBitmap : option Bitmap;
  _tilingSprite : option nat;
  (** the tiling sprites created so far; [_tilingSprite] and [children]
      refer to them by position *)
  sprites : list TilingSprite
}.

Arguments _data {T} _.
Arguments _tilesets {T} _.
Arguments _tileWidth {T} _.
Arguments _tileHeight {T} _.
Arguments _gridHorz {T} _.
Arguments _gridVert {T} _.
Arguments visible {T} _.
Arguments bitmap {T} _.
Arguments children {T} _.
Arguments _layerBitmap {T} _.
Arguments _tilingSprite {T} _.
Arguments sprites {T} _.

(** ** Exceptions and the monad of methods *)

Inductive Exn : Type :=
| TypeError (msg : string).

Inductive Outcome (A : Type) : Type :=
| Done (a : A)
| Thrown (e : Exn).

Arguments Done {A} a.
Arguments Thrown {A} e.

(** A method runs on the object state [S] and either returns or throws;
    in both cases the state is left as the method's side effects made
    it. *)
Definition M (S A : Type) : Type := S -> Outcome A * S.

Definition ret {S A : Type} (a : A) : M S A := fun l => (Done a, l).

Definition bind {S A B : Type} (m : M S A) (k : A -> M S B) : M S B :=
  fun l =>
    match m l with
    | (Done a, l') => k a l'
    | (Thrown e, l') => (Thrown e, l')
    end.

Definition throw {S A : Type} (e : Exn) : M S A := fun l => (Thrown e, l).

Definition get {S : Type} : M S S := fun l => (Done l, l).

Definition modify {S : Type} (f : S -> S) : M S unit := fun l => (Done tt, f l).

Definition when {S : Type} (b : bool) (m : M S unit) : M S unit :=
  if b then m else ret tt.

Declare Scope method_scope.
Delimit Scope method_scope with method.
Notation "x <- m ;; k" := (bind m (fun x => k))
  (at level 100, m at next level, right associativity) : method_scope.
Notation "m ;; k" := (bind m (fun _ => k))
  (at level 100, right associativity) : method_scope.
Open Scope method_scope.

Section LayerMethods.

Context {T : Type} `{TilesetOps T}.

(** *** Field assignments *)

Definition set_layerBitmap (b : option Bitmap) (l : Layer T) : Layer T :=
  {| _data := _data l; _tilesets := _tilesets l;
     _tileWidth := _tileWidth l; _tileHeight := _tileHeight l;
     _gridHorz := _gridHorz l; _gridVert := _gridVert l;
     visible := visible l; bitmap := bitmap l; children := children l;
     _layerBitmap := b; _tilingSprite := _tilingSprite l;
     sprites := sprites l |}.

Definition set_bitmap (b : option BitmapRef) (l : Layer T) : Layer T :=
  {| _data := _data l; _tilesets := _tilesets l;
     _tileWidth := _tileWidth l; _tileHeight := _tileHeight l;
     _gridHorz := _gridHorz l; _gridVert := _gridVert l;
     visible := visible l; bitmap := b; children := children l;
     _layerBitmap := _layerBitmap l; _tilingSprite := _tilingSprite l;
     sprites := sprites l |}.

Definition set_tilingSprite (r : option nat) (l : Layer T) : Layer T :=
  {| _data := _data l; _tilesets := _tilesets l;
     _tileWidth := _tileWidth l; _tileHeight := _tileHeight l;
     _gridHorz := _gridHorz l; _gridVert := _gridVert l;
     visible := visible l; bitmap := bitmap l; children := children l;
     _layerBitmap := _layerBitmap l; _tilingSprite := r;
     sprites := sprites l |}.

Definition set_sprites (ss : list TilingSprite) (l : Layer T) : Layer T :=
  {| _data := _data l; _tilesets := _tilesets l;
     _tileWidth := _tileWidth l; _tileHeight := _tileHeight l;
     _gridHorz := _gridHorz l; _gridVert := _gridVert l;
     visible := visible l; bitmap := bitmap l; children := children l;
     _layerBitmap := _layerBitmap l; _tilingSprite := _tilingSprite l;
     sprites := ss |}.

Definition set_children (cs : list nat) (l : Layer T) : Layer T :=
  {| _data := _data l; _tilesets := _tilesets l;
     _tileWidth := _tileWidth l; _tileHeight := _tileHeight l;
     _gridHorz := _gridHorz l; _gridVert := _gridVert l;
     visible := visible l; bitmap := bitmap l; children := cs;
     _layerBitmap := _layerBitmap l; _tilingSprite := _tilingSprite l;
     sprites := sprites l |}.

(** *** Construction *)

(** [Layer.prototype.initialize]: the Sprite part starts visible, without
    content and without children; assigning [data] runs [_setupData],
    which copies the grid size.  ([data] is an object: on a null one the
    constructor throws at [this.data.visible] and there is no layer.) *)
Definition initialize (data : Data.t) (tilesets : list T)
    (tileWidth tileHeight : Z) : Layer T :=
  {| _data := data; _tilesets := tilesets;
     _tileWidth := tileWidth; _tileHeight := tileHeight;
     _gridHorz := Data.width data; _gridVert := Data.height data;
     visible := if negb (Data.visible data) then false else true;
     bitmap := None; children := [];
     _layerBitmap := None; _tilingSprite := None; sprites := [] |}.

(** *** Accessors *)

(** [this.gridHorz]: [this._gridHorz || 0] *)
Definition gridHorz (l : Layer T) : Z := default 0 (_gridHorz l).

(** [this.gridVert]: [this._gridVert || 0] *)
Definition gridVert (l : Layer T) : Z := default 0 (_gridVert l).

(** [this.tileWidth]: [this._tileWidth || 0] *)
Definition tileWidth (l : Layer T) : Z := _tileWidth l.

(** [this.tileHeight]: [this._tileHeight || 0] *)
Definition tileHeight (l : Layer T) : Z := _tileHeight l.

Definition tilesData (l : Layer T) : option (list Z) := Data.data (_data l).

Definition objectsData (l : Layer T) : option (list Obj.t) :=
  Data.objects (_data l).

(** [this.tilesets]: [this._tilesets || []] *)
Definition tilesets (l : Layer T) : list T := _tilesets l.

(** [this.properties]: [this.data.properties || {}] *)
Definition properties (l : Layer T) : gmap string Js.val :=
  default ∅ (Data.properties (_data l)).

(** Reading a key of a property bag: [undefined] when the key is
    missing. *)
Definition prop (bag : gmap string Js.val) (key : string) : Js.val :=
  default Js.VUndefined (bag !! key).

(** [ToBoolean] of an object, whatever it is: true. *)
Definition object_truthy {A : Type} (_ : A) : bool := true.

(** *** Classification *)

Definition isTileLayer (l : Layer T) : bool :=
  String.eqb (Data.type (_data l)) "tilelayer".

Definition isObjectLayer (l : Layer T) : bool :=
  String.eqb (Data.type (_data l)) "objectgroup".

Definition isImageLayer (l : Layer T) : bool :=
  String.eqb (Data.type (_data l)) "imagelayer".

Definition isPlaneLayer (l : Layer T) : bool :=
  isImageLayer l
  && object_truthy (properties l)
  && Js.truthy (prop (properties l) "parallax").

Variable E : Ambient.

Definition isLoopHorizontal (l : Layer T) : bool := gameMap_isLoopHorizontal E.

Definition isLoopVertical (l : Layer T) : bool := gameMap_isLoopVertical E.

Definition isLoop (l : Layer T) : bool :=
  isLoopHorizontal l || isLoopVertical l.

Definition isCollisionLayer (l : Layer T) : bool :=
  object_truthy (properties l) && Js.truthy (prop (properties l) "collision").

Definition isRegionLayer (l : Layer T) : bool :=
  object_truthy (properties l) && Js.truthy (prop (properties l) "regionId").

(** [isUpperLayer] calls [toLowerCase] on a truthy [layer] property, which
    only a string has. *)
Definition isUpperLayer (l : Layer T) : Outcome bool :=
  if Js.truthy (prop (properties l) "layer") then
    match prop (properties l) "layer" with
    | Js.VStr s => Done (String.eqb (Js.toLowerCase s) "upper")
    | _ => Thrown (TypeError "toLowerCase is not a function")
    end
  else Done false.

(** *** The tiling sprites of the layer *)

Definition gets {A : Type} (f : Layer T -> A) : M (Layer T) A :=
  fun l => (Done (f l), l).

(** [this._tilingSprite = new TilingSprite(bitmap)] *)
Definition create_tilingSprite (bitmap : option BitmapRef)
    : M (Layer T) unit :=
  modify (fun l =>
    set_tilingSprite (Some (length (sprites l)))
      (set_sprites (sprites l ++ [new_TilingSprite bitmap]) l)).

(** The object [this._tilingSprite] refers to, if the field is not null.
    (A reference always designates a sprite that was created: see
    [wf_refs] below.) *)
Definition the_tilingSprite (l : Layer T) : option TilingSprite :=
  r ← _tilingSprite l; sprites l !! r.

(** An in-place update of the object [this._tilingSprite] refers to. *)
Definition update_tilingSprite (f : TilingSprite -> TilingSprite)
    : M (Layer T) unit :=
  l <- get ;;
  match _tilingSprite l with
  | Some r => modify (set_sprites (alter f r (sprites l)))
  | None => throw (TypeError "this._tilingSprite is null")
  end.

(** [this.addChild(this._tilingSprite)] *)
Definition addChild_tilingSprite : M (Layer T) unit :=
  l <- get ;;
  match _tilingSprite l with
  | Some r => modify (set_children (children l ++ [r]))
  | None => throw (TypeError "this._tilingSprite is null")
  end.

(** The size of the bitmap a reference designates. *)
Definition bitmap_size (l : Layer T) (b : BitmapRef) : option (Z * Z) :=
  match b with
  | LayerBitmapRef =>
      match _layerBitmap l with
      | Some bm => Some (bmp_width bm, bmp_height bm)
      | None => None
      end
  | ImageRef img => Some (img_width img, img_height img)
  end.

(** [this._layerBitmap.width] and [.height]: reading a field of the
    backing bitmap throws when there is none. *)
Definition layerBitmap_field (f : Bitmap -> Z) : M (Layer T) Z :=
  l <- get ;;
  match _layerBitmap l with
  | Some bm => ret (f bm)
  | None => throw (TypeError "this._layerBitmap is undefined")
  end.

(** *** Drawing *)

(** The loop of [_getTileset] over [this.tilesets]. *)
Fixpoint scan_tilesets (tilesets : list T) (tileId : Z) : option T :=
  match tilesets with
  | [] => None
  | tileset :: rest =>
      match isInTileset tileset tileId with
      | false => scan_tilesets rest tileId
      | true => Some tileset
      end
  end.

Definition _getTileset (l : Layer T) (tileId : Z) : option T :=
  scan_tilesets (tilesets l) tileId.

Definition _drawTile (tileId : Z) (x y : Js.num) : M (Layer T) unit :=
  l <- get ;;
  match _getTileset l tileId with
  | None => throw (TypeError "tileset is null")
  | Some tileset =>
      let params := getBlockTransferParams tileset tileId x y in
      match _layerBitmap l with
      | None => throw (TypeError "dest is undefined")
      | Some dest => modify (set_layerBitmap (Some (blt dest params)))
      end
  end.

(** [this._gridHorz] used as a number: [undefined] converts to NaN. *)
Definition field_num (f : option Z) : Js.num :=
  match f with
  | Some z => Js.Fin z
  | None => Js.NaN
  end.

Definition _renderLoopLayer : M (Layer T) unit :=
  l <- get ;;
  tilingWidth <-
    (if isLoopHorizontal l then ret (Graphics_width E)
     else layerBitmap_field bmp_width) ;;
  tilingHeight <-
    (if isLoopVertical l then ret (Graphics_height E)
     else layerBitmap_field bmp_height) ;;
  create_tilingSprite (match _layerBitmap l with
                       | Some _ => Some LayerBitmapRef
                       | None => None
                       end) ;;
  update_tilingSprite (move 0 0 tilingWidth tilingHeight) ;;
  addChild_tilingSprite.

(** [this.bitmap = this._layerBitmap] *)
Definition assign_bitmap : M (Layer T) unit :=
  modify (fun l =>
    set_bitmap (match _layerBitmap l with
                | Some _ => Some LayerBitmapRef
                | None => None
                end) l).

(** The body of the [for] loop of [_renderTileLayer], from index [i] on;
    [tiles] is what is left of [this.tilesData]. *)
Fixpoint tile_loop (i : Z) (tiles : list Z) : M (Layer T) unit :=
  match tiles with
  | [] => ret tt
  | tileId :: rest =>
      l <- get ;;
      let bitmapX := Js.rem (Js.Fin i) (field_num (_gridHorz l)) in
      let bitmapX := Js.mul bitmapX (Js.Fin (tileWidth l)) in
      let bitmapY := Js.floor_div (Js.Fin i) (field_num (_gridHorz l)) in
      let bitmapY := Js.mul bitmapY (Js.Fin (tileHeight l)) in
      (if tileId =? 0 then ret tt
       else _drawTile tileId bitmapX bitmapY) ;;
      tile_loop (i + 1) rest
  end.

Definition _renderTileLayer : M (Layer T) unit :=
  l <- get ;;
  match tilesData l with
  | None => throw (TypeError "this.tilesData is undefined")
  | Some tiles =>
      tile_loop 0 tiles ;;
      if object_truthy isLoop then _renderLoopLayer else assign_bitmap
  end.

(** The [for] loop of [_renderObjectLayer] over [this.objectsData]. *)
Fixpoint object_loop (objects : list Obj.t) : M (Layer T) unit :=
  match objects with
  | [] => ret tt
  | data :: rest =>
      let tileId := Obj.gid data in
      let bitmapX := Js.Math_round (Obj.x data) in
      let bitmapY := Js.Math_round (Js.sub (Obj.y data) (Obj.height data)) in
      (if tileId =? 0 then ret tt
       else _drawTile tileId bitmapX bitmapY) ;;
      object_loop rest
  end.

Definition _renderObjectLayer : M (Layer T) unit :=
  l <- get ;;
  match objectsData l with
  | None => throw (TypeError "this.objectsData is undefined")
  | Some objects =>
      object_loop objects ;;
      if object_truthy isLoop then _renderLoopLayer else assign_bitmap
  end.

Definition _renderImageLayer : M (Layer T) unit :=
  l <- get ;;
  let img := loadParserParallax E (Data.image (_data l)) 0 in
  match _layerBitmap l with
  | None => throw (TypeError "dest is undefined")
  | Some dest =>
      modify (set_layerBitmap (Some (blt dest
        {| blt_source := img_name img;
           blt_sx := Js.Fin 0; blt_sy := Js.Fin 0;
           blt_sw := Js.Fin (img_width img); blt_sh := Js.Fin (img_height img);
           blt_dx := Js.Fin (Data.x (_data l));
           blt_dy := Js.Fin (Data.y (_data l)) |}))) ;;
      assign_bitmap
  end.

Definition _renderPlaneLayer : M (Layer T) unit :=
  l <- get ;;
  let img := loadParserParallax E (Data.image (_data l)) 0 in
  create_tilingSprite (Some (ImageRef img)) ;;
  update_tilingSprite (move (Data.x (_data l)) (Data.y (_data l))
                            (Graphics_width E) (Graphics_height E)) ;;
  addChild_tilingSprite.

Definition renderLayer : M (Layer T) unit :=
  modify (fun l =>
    set_layerBitmap
      (match _layerBitmap l with
       | Some bm => Some bm
       | None => Some (new_Bitmap (gridHorz l * tileWidth l)
                                  (gridVert l * tileHeight l))
       end) l) ;;
  b <- gets isObjectLayer ;;
  when b _renderObjectLayer ;;
  b <- gets isTileLayer ;;
  when b _renderTileLayer ;;
  b <- gets (fun l => isImageLayer l && negb (isPlaneLayer l)) ;;
  when b _renderImageLayer ;;
  b <- gets isPlaneLayer ;;
  when b _renderPlaneLayer.

(** *** Scrolling *)

Definition _updatePlane : M (Layer T) unit :=
  l <- get ;;
  let xSpeed := Js.parseInt (prop (properties l) "planeX") in
  let ySpeed := Js.parseInt (prop (properties l) "planeY") in
  match the_tilingSprite l with
  | None => ret tt
  | Some s =>
      let ox := origin_x s in
      let oy := origin_y s in
      match ts_bitmap s ≫= bitmap_size l with
      | None => throw (TypeError "this._tilingSprite.bitmap is null")
      | Some (mOx, mOy) =>
          when (Js.num_truthy xSpeed)
            (update_tilingSprite
               (set_origin_x (Js.rem (Js.add ox xSpeed) (Js.Fin mOx)))) ;;
          when (Js.num_truthy ySpeed)
            (update_tilingSprite
               (set_origin_y (Js.rem (Js.add oy ySpeed) (Js.Fin mOy))))
      end
  end.

Definition update : M (Layer T) unit := _updatePlane.

Definition moveLoopLayer (x y : Js.num) : M (Layer T) unit :=
  l <- get ;;
  match the_tilingSprite l with
  | None => ret tt
  | Some _ =>
      update_tilingSprite (set_origin_x x) ;;
      update_tilingSprite (set_origin_y y)
  end.

End LayerMethods.

(** ** Descriptions of states

    The states and sprites the statements below speak of. *)

Section Descriptions.

Context {T : Type} `{TilesetOps T}.
Variable E : Ambient.

Implicit Types (l : Layer T) (s : TilingSprite).

(** The layer after [new TilingSprite], [move] and [addChild]: the sprite
    [s] is the newest object, the field refers to it and it is the last
    child. *)
Definition attach_tilingSprite (s : TilingSprite) (l : Layer T) : Layer T :=
  {| _data := _data l; _tilesets := _tilesets l;
     _tileWidth := _tileWidth l; _tileHeight := _tileHeight l;
     _gridHorz := _gridHorz l; _gridVert := _gridVert l;
     visible := visible l; bitmap := bitmap l;
     children := children l ++ [length (sprites l)];
     _layerBitmap := _layerBitmap l;
     _tilingSprite := Some (length (sprites l));
     sprites := sprites l ++ [s] |}.

(** The size [_renderLoopLayer] gives the tiling sprite. *)
Definition loop_width (bm : Bitmap) : Z :=
  if gameMap_isLoopHorizontal E then Graphics_width E else bmp_width bm.

Definition loop_height (bm : Bitmap) : Z :=
  if gameMap_isLoopVertical E then Graphics_height E else bmp_height bm.

Definition loop_sprite (bm : Bitmap) : TilingSprite :=
  move 0 0 (loop_width bm) (loop_height bm)
       (new_TilingSprite (Some LayerBitmapRef)).

(** The sprite with its origin at [(x, y)]. *)
Definition scrolled_to (x y : Js.num) s : TilingSprite :=
  set_origin_y y (set_origin_x x s).

(** The backing bitmap once [renderLayer] has executed its first
    statement: the one the layer had, or a blank one of the grid's pixel
    size. *)
Definition backing_bitmap l : Bitmap :=
  match _layerBitmap l with
  | Some bm => bm
  | None => new_Bitmap (gridHorz l * tileWidth l) (gridVert l * tileHeight l)
  end.

Definition ensure_backing l : Layer T :=
  set_layerBitmap (Some (backing_bitmap l)) l.

(** A bitmap with further block transfers drawn on it. *)
Definition add_blits (bm : Bitmap) (blits : list BltArgs) : Bitmap :=
  {| bmp_width := bmp_width bm;
     bmp_height := bmp_height bm;
     bmp_blits := bmp_blits bm ++ blits |}.

(** The sprite [_renderPlaneLayer] creates. *)
Definition plane_sprite l : TilingSprite :=
  move (Data.x (_data l)) (Data.y (_data l))
       (Graphics_width E) (Graphics_height E)
       (new_TilingSprite
          (Some (ImageRef (loadParserParallax E (Data.image (_data l)) 0)))).

(** The block transfer [_renderImageLayer] draws. *)
Definition image_blit l : BltArgs :=
  let img := loadParserParallax E (Data.image (_data l)) 0 in
  {| blt_source := img_name img;
     blt_sx := Js.Fin 0; blt_sy := Js.Fin 0;
     blt_sw := Js.Fin (img_width img); blt_sh := Js.Fin (img_height img);
     blt_dx := Js.Fin (Data.x (_data l));
     blt_dy := Js.Fin (Data.y (_data l)) |}.

(** A draw call: the tile and the pixel its top-left corner goes to. *)
Definition Draw : Type := Z * (Z * Z).

(** After the specification, §4.1 (tile strategy): the entry at index [i]
    goes to [((i mod gridHorz) * tileWidth, floor(i / gridHorz) *
    tileHeight)]. *)
Definition spec_tile_destination (gridHorz tileWidth tileHeight : Z) (i : nat)
    : Z * Z :=
  ((Z.of_nat i mod gridHorz) * tileWidth, (Z.of_nat i / gridHorz) * tileHeight).

(** After the specification: every index in row-major order, entries equal
    to 0 skipped. *)
Definition spec_tile_draws (gridHorz tileWidth tileHeight : Z)
    (tiles : list Z) : list Draw :=
  omap id
    (imap (fun i tileId =>
             if tileId =? 0 then None
             else Some (tileId,
                        spec_tile_destination gridHorz tileWidth tileHeight i))
          tiles).

(** A draw call of the object pass: the tile and the pixel its top-left
    corner goes to, which is what [Math.round] returns. *)
Definition ObjectDraw : Type := Z * (Js.num * Js.num).

(** After the specification, §4.1 (object strategy): the entries in array
    order, those with gid 0 skipped, each at
    [(round(x), round(y - height))], the numbers being doubles. *)
Definition spec_object_draws (objects : list Obj.t) : list ObjectDraw :=
  omap (fun o =>
          if Obj.gid o =? 0 then None
          else Some (Obj.gid o,
                     (Js.Math_round (Obj.x o),
                      Js.Math_round (Js.sub (Obj.y o) (Obj.height o)))))
       objects.

(** The draw calls of a list, issued in order. *)
Fixpoint draw_calls (draws : list Draw) : M (Layer T) unit :=
  match draws with
  | [] => ret tt
  | (tileId, (x, y)) :: rest =>
      _drawTile tileId (Js.Fin x) (Js.Fin y) ;; draw_calls rest
  end.

(** What a draw call transfers: the parameters the first tileset that
    contains the tile gives for it. *)
Definition draw_params l (d : Draw) : option BltArgs :=
  match _getTileset l d.1 with
  | Some tileset =>
      Some (getBlockTransferParams tileset d.1
              (Js.Fin d.2.1) (Js.Fin d.2.2))
  | None => None
  end.

(** The draw calls of the object pass, issued in order. *)
Fixpoint object_draw_calls (draws : list ObjectDraw) : M (Layer T) unit :=
  match draws with
  | [] => ret tt
  | (tileId, (x, y)) :: rest =>
      _drawTile tileId x y ;; object_draw_calls rest
  end.

Definition object_draw_params l (d : ObjectDraw) : option BltArgs :=
  match _getTileset l d.1 with
  | Some tileset => Some (getBlockTransferParams tileset d.1 d.2.1 d.2.2)
  | None => None
  end.

(** What the constructor sets and no method assigns afterwards. *)
Definition config l : Data.t * list T * (Z * Z) * (option Z * option Z) * bool :=
  (_data l, _tilesets l, (_tileWidth l, _tileHeight l),
   (_gridHorz l, _gridVert l), visible l).

(** A method that leaves the configuration alone, however it ends. *)
Definition keeps_config {A : Type} (m : M (Layer T) A) : Prop :=
  forall l o l', m l = (o, l') -> config l' = config l.

(** One axis of [_updatePlane]: the origin [o] after a frame at [speed]
    over a bitmap of size [dimension]. *)
Definition scroll_axis (o speed : Js.num) (dimension : Z) : Js.num :=
  if Js.num_truthy speed then Js.rem (Js.add o speed) (Js.Fin dimension)
  else o.

(** The speeds [_updatePlane] parses from the properties. *)
Definition xSpeed l : Js.num := Js.parseInt (prop (properties l) "planeX").
Definition ySpeed l : Js.num := Js.parseInt (prop (properties l) "planeY").

(** The layer with the sprite at reference [r] replaced by [s]. *)
Definition with_sprite (r : nat) s l : Layer T :=
  set_sprites (<[r := s]> (sprites l)) l.

(** The layer with [blits] drawn on its backing bitmap, if it has one. *)
Definition drawn (blits : list BltArgs) l : Layer T :=
  set_layerBitmap
    (match _layerBitmap l with
     | Some bm => Some (add_blits bm blits)
     | None => None
     end) l.

(** A method whose only effect is to draw on the backing bitmap, however
    it ends. *)
Definition only_draws {A : Type} (m : M (Layer T) A) : Prop :=
  forall l o l', m l = (o, l') -> exists blits, l' = drawn blits l.

(** "No surface is created" between two states: the backing bitmap and
    the tiling sprites are what they were. *)
Definition creates_no_surface l l' : Prop :=
  _layerBitmap l' = _layerBitmap l /\ sprites l' = sprites l.

(** References designate sprites that exist. *)
Definition wf_refs l : Prop :=
  forall r, _tilingSprite l = Some r -> (r < length (sprites l))%nat.

(** A method that leaves no dangling reference, however it ends. *)
Definition keeps_refs {A : Type} (m : M (Layer T) A) : Prop :=
  forall l o l', wf_refs l -> m l = (o, l') -> wf_refs l'.

End Descriptions.

(** [n] calls of a method in a row (a throw ends the sequence). *)
Fixpoint repeat_call {S : Type} (n : nat) (m : M S unit) : M S unit :=
  match n with
  | O => ret tt
  | Datatypes.S n' => m ;; repeat_call n' m
  end.

(** ** Assigning the data, and the life of a layer *)

Section Lifecycle.

Context {T : Type} `{TilesetOps T}.
Variable E : Ambient.

Implicit Types (l : Layer T) (s : TilingSprite).

Definition set_data_field (data : Data.t) l : Layer T :=
  {| _data := data; _tilesets := _tilesets l;
     _tileWidth := _tileWidth l; _tileHeight := _tileHeight l;
     _gridHorz := _gridHorz l; _gridVert := _gridVert l;
     visible := visible l; bitmap := bitmap l; children := children l;
     _layerBitmap := _layerBitmap l; _tilingSprite := _tilingSprite l;
     sprites := sprites l |}.

Definition set_gridHorz_field (grid : option Z) l : Layer T :=
  {| _data := _data l; _tilesets := _tilesets l;
     _tileWidth := _tileWidth l; _tileHeight := _tileHeight l;
     _gridHorz := grid; _gridVert := _gridVert l;
     visible := visible l; bitmap := bitmap l; children := children l;
     _layerBitmap := _layerBitmap l; _tilingSprite := _tilingSprite l;
     sprites := sprites l |}.

Definition set_gridVert_field (grid : option Z) l : Layer T :=
  {| _data := _data l; _tilesets := _tilesets l;
     _tileWidth := _tileWidth l; _tileHeight := _tileHeight l;
     _gridHorz := _gridHorz l; _gridVert := grid;
     visible := visible l; bitmap := bitmap l; children := children l;
     _layerBitmap := _layerBitmap l; _tilingSprite := _tilingSprite l;
     sprites := sprites l |}.

(** The setter of [gridHorz]: [this._gridHorz = grid] *)
Definition gridHorz_setter (grid : option Z) : M (Layer T) unit :=
  modify (set_gridHorz_field grid).

(** The setter of [gridVert]: [this._gridVert = grid] *)
Definition gridVert_setter (grid : option Z) : M (Layer T) unit :=
  modify (set_gridVert_field grid).

(** [Layer.prototype._setupData].  The field [_data] of the state holds a
    data object, which is truthy, so the guard [!!this.data] passes.  The
    branch for a falsy [this.data] belongs to the assignment of [null],
    which the state cannot hold. *)
Definition _setupData : M (Layer T) unit :=
  l <- get ;;
  if object_truthy (_data l) then
    gridHorz_setter (Data.width (_data l)) ;;
    l <- get ;;
    gridVert_setter (Data.height (_data l))
  else ret tt.

(** The setter of [data], for the assignment of a data object:
    [this._data = data; this._setupData()].  The source also accepts
    [layer.data = null], after which every method that reads
    [this.data.type] or [this.data.properties] throws; that assignment
    has no counterpart here, so a statement over sequences of calls that
    contain [SetData] speaks of assignments of objects only. *)
Definition data_setter (data : Data.t) : M (Layer T) unit :=
  modify (set_data_field data) ;;
  _setupData.

(** What the engine and the map controller do to a layer once it is
    constructed. *)
Inductive Call : Type :=
| Render
| Update
| MoveLoop (x y : Js.num)
| SetData (data : Data.t).

Definition call (c : Call) : M (Layer T) unit :=
  match c with
  | Render => renderLayer E
  | Update => update
  | MoveLoop x y => moveLoopLayer x y
  | SetData data => data_setter data
  end.

(** The layer after a sequence of calls.  A call that throws leaves the
    object as it was when the exception was raised, and the next call
    runs on that. *)
Fixpoint run_calls (cs : list Call) l : Layer T :=
  match cs with
  | [] => l
  | c :: cs' => run_calls cs' (call c l).2
  end.

Definition is_assignment (c : Call) : bool :=
  match c with
  | SetData _ => true
  | _ => false
  end.

(** Every tiling sprite created is a child of the node, in the order of
    creation, and the field [_tilingSprite] refers to the newest. *)
Definition sprites_attached l : Prop :=
  children l = seq 0 (length (sprites l)) /\
  _tilingSprite l =
    match length (sprites l) with
    | O => None
    | Datatypes.S newest => Some newest
    end.

(** Every tiling sprite has a texture, and the texture exists. *)
Definition textures_present l : Prop :=
  Forall (fun s => exists b, ts_bitmap s = Some b /\ is_Some (bitmap_size l b))
         (sprites l).

(** The node's content, when it has one, is the backing bitmap. *)
Definition content_is_backing l : Prop :=
  forall b, bitmap l = Some b -> b = LayerBitmapRef /\ is_Some (_layerBitmap l).

Definition well_formed l : Prop :=
  sprites_attached l /\ textures_present l /\ content_is_backing l.

(** The same bitmap object later on: its size is the same and what was
    drawn on it is still there, first. *)
Definition grown_from (bm bm' : Bitmap) : Prop :=
  bmp_width bm' = bmp_width bm /\
  bmp_height bm' = bmp_height bm /\
  bmp_blits bm `prefix_of` bmp_blits bm'.

(** The backing bitmap, when there is one, has the pixel size of the
    grid. *)
Definition backing_sized l : Prop :=
  forall bm,
    _layerBitmap l = Some bm ->
    bmp_width bm = gridHorz l * tileWidth l /\
    bmp_height bm = gridVert l * tileHeight l.

(** The origin on one axis after [n] frames. *)
Definition axis_after (n : nat) (o speed : Js.num) (dimension : Z) : Js.num :=
  Nat.iter n (fun o' => scroll_axis o' speed dimension) o.

(** A tile of [tw] by [th] pixels drawn at the destination of [d] lies
    within the bitmap. *)
Definition in_bitmap (bm : Bitmap) (tw th : Z) (d : Draw) : Prop :=
  0 <= d.2.1 /\ d.2.1 + tw <= bmp_width bm /\
  0 <= d.2.2 /\ d.2.2 + th <= bmp_height bm.

(** A tile ID that the pass can handle: none, or one of a tileset. *)
Definition resolves l (tileId : Z) : Prop :=
  tileId = 0 \/ is_Some (_getTileset l tileId).

End Lifecycle.

(** ** A tileset to run the layer on

    An implementation of the interface in the manner of Tiled: the tiles
    [firstgid .. firstgid + tilecount - 1] of an image, [columns] to a
    row. *)
Record RangeTileset : Type := {
  rt_image : string;
  rt_firstgid : Z;
  rt_tilecount : Z;
  rt_columns : Z;
  rt_tileWidth : Z;
  rt_tileHeight : Z
}.

#[global] Instance RangeTileset_ops : TilesetOps RangeTileset := {|
  isInTileset ts tileId :=
    (rt_firstgid ts <=? tileId) && (tileId <? rt_firstgid ts + rt_tilecount ts);
  getBlockTransferParams ts tileId x y :=
    let k := tileId - rt_firstgid ts in
    {| blt_source := rt_image ts;
       blt_sx := Js.Fin ((k mod rt_columns ts) * rt_tileWidth ts);
       blt_sy := Js.Fin ((k / rt_columns ts) * rt_tileHeight ts);
       blt_sw := Js.Fin (rt_tileWidth ts);
       blt_sh := Js.Fin (rt_tileHeight ts);
       blt_dx := x;
       blt_dy := y |}
|}.

Module Fixtures.

Definition outdoor : RangeTileset :=
  {| rt_image := "Outside_A"; rt_firstgid := 1; rt_tilecount := 64;
     rt_columns := 8; rt_tileWidth := 48; rt_tileHeight := 48 |}.

Definition indoor : RangeTileset :=
  {| rt_image := "Inside_B"; rt_firstgid := 65; rt_tilecount := 64;
     rt_columns := 8; rt_tileWidth := 48; rt_tileHeight := 48 |}.

Definition image_of (name : string) (_ : Z) : Image :=
  {| img_name := name; img_width := 100; img_height := 60 |}.

(** A map that does not wrap around, shown in a 816 x 624 viewport. *)
Definition plain_map : Ambient :=
  {| gameMap_isLoopHorizontal := false; gameMap_isLoopVertical := false;
     Graphics_width := 816; Graphics_height := 624;
     loadParserParallax := image_of |}.

(** A map that wraps around horizontally only. *)
Definition ring_map : Ambient :=
  {| gameMap_isLoopHorizontal := true; gameMap_isLoopVertical := false;
     Graphics_width := 816; Graphics_height := 624;
     loadParserParallax := image_of |}.

Definition layer_data (type : string) (props : option (gmap string Js.val))
    : Data.t :=
  {| Data.type := type; Data.width := Some 3; Data.height := Some 2;
     Data.data := Some [1; 0; 70; 0; 0; 9];
     Data.objects :=
       Some [ {| Obj.gid := 5; Obj.x := 10.5%float; Obj.y := 50.4%float;
                 Obj.height := 20.2%float |};
              {| Obj.gid := 0; Obj.x := 3%float; Obj.y := 4%float;
                 Obj.height := 1%float |};
              {| Obj.gid := 66; Obj.x := 96%float; Obj.y := 144%float;
                 Obj.height := 48%float |};
              {| Obj.gid := 9; Obj.x := 2.5%float; Obj.y := 0.7%float;
                 Obj.height := 0.2%float |} ];
     Data.image := "Clouds"; Data.x := 16; Data.y := 32;
     Data.visible := true; Data.properties := props |}.

Definition make (type : string) (props : option (gmap string Js.val))
    : Layer RangeTileset :=
  initialize (layer_data type props) [outdoor; indoor] 48 48.

Definition tile_layer : Layer RangeTileset := make "tilelayer" None.
Definition object_layer : Layer RangeTileset := make "objectgroup" None.
Definition image_layer : Layer RangeTileset := make "imagelayer" None.
Definition group_layer : Layer RangeTileset := make "group" None.

(** A parallax plane that scrolls two pixels to the right per frame. *)
Definition plane_layer : Layer RangeTileset :=
  make "imagelayer"
    (Some (<["parallax" := Js.VStr "true"]>
           (<["planeX" := Js.VStr "2"]>
           (<["planeY" := Js.VStr "0"]> ∅)))).

(** A parallax plane that scrolls two pixels to the left per frame. *)
Definition left_plane_layer : Layer RangeTileset :=
  make "imagelayer"
    (Some (<["parallax" := Js.VStr "true"]>
           (<["planeX" := Js.VStr "-2"]> ∅))).

(** The layer after [renderLayer]. *)
Definition rendered (E : Ambient) (l : Layer RangeTileset)
    : Layer RangeTileset :=
  (renderLayer E l).2.

(** The sprite [renderLayer] gives a plane of these fixtures. *)
Definition clouds_sprite : TilingSprite :=
  {| ts_bitmap := Some (ImageRef (image_of "Clouds" 0));
     ts_x := 16; ts_y := 32; ts_width := 816; ts_height := 624;
     origin_x := Js.Fin 0; origin_y := Js.Fin 0 |}.

End Fixtures.

(** More layers to run the methods on. *)
Module Scenes.

Import Fixtures.

(** The loader while an image is still loading: the bitmap it hands out
    reads 0 by 0. *)
Definition loading_image (name : string) (_ : Z) : Image :=
  {| img_name := name; img_width := 0; img_height := 0 |}.

Definition loading_map : Ambient :=
  {| gameMap_isLoopHorizontal := false; gameMap_isLoopVertical := false;
     Graphics_width := 816; Graphics_height := 624;
     loadParserParallax := loading_image |}.

(** A tile layer whose second tile belongs to no tileset. *)
Definition torn_data : Data.t :=
  {| Data.type := "tilelayer"; Data.width := Some 3; Data.height := Some 1;
     Data.data := Some [1; 500; 9]; Data.objects := None;
     Data.image := ""; Data.x := 0; Data.y := 0;
     Data.visible := false; Data.properties := None |}.

Definition torn_layer : Layer RangeTileset :=
  initialize torn_data [outdoor; indoor] 48 48.

(** A plane that drifts up and to the left. *)
Definition drifting_plane : Layer RangeTileset :=
  make "imagelayer"
    (Some (<["parallax" := Js.VStr "1"]>
           (<["planeX" := Js.VStr "-3"]>
           (<["planeY" := Js.VStr "-7"]> ∅)))).


(** What a frame loop and a map controller might call. *)
Definition session : list Call :=
  [Render; Update; MoveLoop (Js.Fin 5) (Js.Fin 7); Update; Render; Update].

End Scenes.

(** ** The number model on samples *)

Example parseInt_samples :
  Js.parseInt (Js.VStr "2") = Js.Fin 2 /\
  Js.parseInt (Js.VStr "  -17px") = Js.Fin (-17) /\
  Js.parseInt (Js.VStr "0x1f") = Js.Fin 31 /\
  Js.parseInt (Js.VStr "0x") = Js.NaN /\
  Js.parseInt (Js.VStr "fast") = Js.NaN /\
  Js.parseInt (Js.VNum (Js.Fin 42)) = Js.Fin 42 /\
  Js.parseInt Js.VUndefined = Js.NaN /\
  Js.parseInt (Js.VBool true) = Js.NaN.
Proof. repeat split; reflexivity. Qed.

Example arithmetic_samples :
  Js.rem (Js.Fin 5) (Js.Fin 3) = Js.Fin 2 /\
  Js.rem (Js.Fin (-2)) (Js.Fin 100) = Js.Fin (-2) /\
  Js.rem (Js.Fin 7) (Js.Fin (-3)) = Js.Fin 1 /\
  Js.rem (Js.Fin 5) (Js.Fin 0) = Js.NaN /\
  Js.floor_div (Js.Fin 7) (Js.Fin 2) = Js.Fin 3 /\
  Js.floor_div (Js.Fin 5) (Js.Fin 0) = Js.PosInf /\
  Js.floor_div (Js.Fin 0) (Js.Fin 0) = Js.NaN /\
  Js.mul Js.PosInf (Js.Fin 48) = Js.PosInf /\
  Js.mul Js.PosInf (Js.Fin 0) = Js.NaN.
Proof. repeat split; reflexivity. Qed.

Example round_samples :
  Js.round 10.5 = 11 /\ Js.round (50.4 - 20.2) = 30 /\
  Js.round (-2.5) = -2 /\ Js.round 7 = 7.
Proof. repeat split; reflexivity. Qed.

Example Math_round_samples :
  Js.Math_round 10.5%float = Js.Fin 11 /\
  Js.Math_round 2.5%float = Js.Fin 3 /\
  Js.Math_round (-2.5)%float = Js.Fin (-2) /\
  Js.Math_round 0.49999999999999994%float = Js.Fin 0 /\
  Js.Math_round (-0.2)%float = Js.Fin 0 /\
  Js.Math_round 9007199254740993%float = Js.Fin 9007199254740992 /\
  Js.Math_round (0 / 0)%float = Js.NaN /\
  Js.Math_round (1 / 0)%float = Js.PosInf /\
  Js.Math_round (-1 / 0)%float = Js.NegInf.
Proof. repeat split; reflexivity. Qed.

(** The subtraction of doubles is not that of the decimal numbers the map
    file shows, nor the exact difference of the doubles: 0.7 - 0.2 is
    0.49999999999999994, which rounds to 0 where a half would round to 1,
    and 1.5 - 2^-60 is 1.5, which rounds to 2 where the exact difference
    would round to 1. *)
Example subtraction_samples :
  Js.Math_round (Js.sub 50.4%float 20.2%float) = Js.Fin 30 /\
  Js.Math_round (Js.sub 0.7%float 0.2%float) = Js.Fin 0 /\
  Js.round (0.7 - 0.2) = 1 /\
  Qred <$> Js.double_value 1.5%float = Some (3 # 2)%Q /\
  Qred <$> Js.double_value 0x1p-60%float = Some (1 # 2 ^ 60)%Q /\
  Js.Math_round (Js.sub 1.5%float 0x1p-60%float) = Js.Fin 2 /\
  Js.round ((3 # 2) - (1 # 2 ^ 60)) = 1.
Proof. repeat split; reflexivity. Qed.

(** ** Running the methods *)

(** Unfolds the plumbing of the monad so that a method applied to a state
    computes. *)
Ltac run :=
  unfold bind, ret, get, gets, modify, throw, when; simpl.

Section LayerFacts.

Context {T : Type} `{TilesetOps T}.
Variable E : Ambient.

Implicit Types (l : Layer T) (tileId : Z) (s : TilingSprite).

Lemma the_tilingSprite_attach s l :
  the_tilingSprite (attach_tilingSprite s l) = Some s.
Proof.
  unfold the_tilingSprite; simpl.
  by rewrite lookup_app_r, Nat.sub_diag by lia.
Qed.

Lemma alter_newest (f : TilingSprite -> TilingSprite) s
    (ss : list TilingSprite) :
  alter f (length ss) (ss ++ [s]) = ss ++ [f s].
Proof. by rewrite alter_app_r_alt, Nat.sub_diag by lia. Qed.

Lemma alter_insert (f : TilingSprite -> TilingSprite) (r : nat) s
    (ss : list TilingSprite) :
  ss !! r = Some s -> alter f r ss = <[r := f s]> ss.
Proof.
  intros Hs. apply list_eq; intros i.
  rewrite list_lookup_alter, list_lookup_insert.
  apply lookup_lt_Some in Hs as Hlt.
  destruct (decide (r = i)) as [<-|Hne].
  - rewrite Hs, decide_True by done. done.
  - rewrite decide_False by tauto. done.
Qed.

Lemma renderLoopLayer_run l bm :
  _layerBitmap l = Some bm ->
  _renderLoopLayer E l = (Done tt, attach_tilingSprite (loop_sprite E bm) l).
Proof.
  intros Hbm.
  unfold _renderLoopLayer, layerBitmap_field, create_tilingSprite,
    update_tilingSprite, addChild_tilingSprite, isLoopHorizontal,
    isLoopVertical, loop_sprite, loop_width, loop_height.
  destruct (gameMap_isLoopHorizontal E), (gameMap_isLoopVertical E);
    run; repeat (rewrite Hbm; simpl); by rewrite alter_newest.
Qed.

(** *** The configuration is never assigned *)

Create HintDb keeps discriminated.

Lemma keeps_ret {A : Type} (a : A) : keeps_config (T := T) (ret a).
Proof. by intros l o l' [= _ <-]. Qed.

Lemma keeps_throw {A : Type} (e : Exn) :
  keeps_config (T := T) (throw (A := A) e).
Proof. by intros l o l' [= _ <-]. Qed.

Lemma keeps_get : keeps_config (T := T) get.
Proof. by intros l o l' [= _ <-]. Qed.

Lemma keeps_gets {A : Type} (f : Layer T -> A) :
  keeps_config (T := T) (gets f).
Proof. by intros l o l' [= _ <-]. Qed.

Lemma keeps_modify (f : Layer T -> Layer T) :
  (forall l, config (f l) = config l) -> keeps_config (T := T) (modify f).
Proof. intros Hf l o l' [= _ <-]. apply Hf. Qed.

Lemma keeps_bind {A B : Type} (m : M (Layer T) A)
    (k : A -> M (Layer T) B) :
  keeps_config m -> (forall a, keeps_config (k a)) ->
  keeps_config (T := T) (bind m k).
Proof.
  intros Hm Hk l o l'. unfold bind.
  destruct (m l) as [[a|e] l1] eqn:Hml; intros Hrun.
  - rewrite (Hk a l1 o l' Hrun). by apply (Hm l (Done a)).
  - injection Hrun as <- <-. by apply (Hm l (Thrown e)).
Qed.

Lemma keeps_when (b : bool) (m : M (Layer T) unit) :
  keeps_config m -> keeps_config (T := T) (when b m).
Proof. destruct b; [done|]. intros _. apply keeps_ret. Qed.

Hint Resolve keeps_ret keeps_throw keeps_get keeps_gets keeps_when : keeps.

(** Applies the combinator lemmas through the binds and branches of a
    method body. *)
Ltac keeps :=
  repeat first
    [ solve [auto with keeps]
    | apply keeps_bind; [|intros ?]
    | apply keeps_modify; by intros ?
    | progress cbv zeta
    | match goal with
      | |- keeps_config (match ?x with _ => _ end) => destruct x
      | |- keeps_config (if ?b then _ else _) => destruct b
      end ].

Lemma keeps_drawTile tileId x y :
  keeps_config (T := T) (_drawTile tileId x y).
Proof. unfold _drawTile. keeps. Qed.

Lemma keeps_update_tilingSprite f :
  keeps_config (T := T) (update_tilingSprite f).
Proof. unfold update_tilingSprite. keeps. Qed.

Lemma keeps_renderLoopLayer : keeps_config (T := T) (_renderLoopLayer E).
Proof.
  unfold _renderLoopLayer, layerBitmap_field, create_tilingSprite,
    addChild_tilingSprite.
  keeps; apply keeps_update_tilingSprite.
Qed.

Hint Resolve keeps_drawTile keeps_update_tilingSprite keeps_renderLoopLayer
  : keeps.

Lemma keeps_draw_calls draws : keeps_config (T := T) (draw_calls draws).
Proof. induction draws as [|[tileId [x y]] draws IH]; simpl; keeps. Qed.

Lemma keeps_tile_loop tiles i : keeps_config (T := T) (tile_loop i tiles).
Proof. revert i. induction tiles as [|tileId tiles IH]; intros i; simpl; keeps. Qed.

Lemma keeps_object_loop objects :
  keeps_config (T := T) (object_loop objects).
Proof. induction objects as [|o objects IH]; simpl; keeps. Qed.

Hint Resolve keeps_draw_calls keeps_tile_loop keeps_object_loop : keeps.

Lemma keeps_renderTileLayer : keeps_config (T := T) (_renderTileLayer E).
Proof. unfold _renderTileLayer, assign_bitmap. keeps. Qed.

Lemma keeps_renderObjectLayer :
  keeps_config (T := T) (_renderObjectLayer E).
Proof. unfold _renderObjectLayer, assign_bitmap. keeps. Qed.

Lemma keeps_renderImageLayer : keeps_config (T := T) (_renderImageLayer E).
Proof. unfold _renderImageLayer, assign_bitmap. keeps. Qed.

Lemma keeps_renderPlaneLayer : keeps_config (T := T) (_renderPlaneLayer E).
Proof.
  unfold _renderPlaneLayer, create_tilingSprite, addChild_tilingSprite. keeps.
Qed.

Hint Resolve keeps_renderTileLayer keeps_renderObjectLayer
  keeps_renderImageLayer keeps_renderPlaneLayer : keeps.

Lemma keeps_renderLayer : keeps_config (T := T) (renderLayer E).
Proof. unfold renderLayer. keeps. Qed.

Lemma keeps_update : keeps_config (update (T := T)).
Proof. unfold update, _updatePlane. keeps. Qed.

Lemma keeps_moveLoopLayer x y : keeps_config (moveLoopLayer (T := T) x y).
Proof. unfold moveLoopLayer. keeps. Qed.

(** The classification reads the configuration only. *)
Lemma config_data l l' : config l' = config l -> _data l' = _data l.
Proof. unfold config. by intros [= -> _ _ _ _ _ _]. Qed.

(** *** Tile resolution *)

Lemma scan_tilesets_Some (tss : list T) tileId ts :
  scan_tilesets tss tileId = Some ts <->
  exists before after,
    tss = before ++ ts :: after /\
    isInTileset ts tileId = true /\
    Forall (fun t => isInTileset t tileId = false) before.
Proof.
  induction tss as [|t tss IH]; simpl.
  - split; [done|]. intros (before & after & Heq & _).
    by destruct before.
  - destruct (isInTileset t tileId) eqn:Hin.
    + split.
      * intros [= <-]. by exists [], tss.
      * intros (before & after & Heq & Hts & Hbefore).
        destruct before as [|t' before]; simpl in Heq.
        -- by injection Heq as -> _.
        -- injection Heq as -> _. apply Forall_cons_1 in Hbefore as [Ht _].
           congruence.
    + rewrite IH. split.
      * intros (before & after & -> & Hts & Hbefore).
        exists (t :: before), after. by repeat split; [|constructor].
      * intros (before & after & Heq & Hts & Hbefore).
        destruct before as [|t' before]; simpl in Heq.
        -- injection Heq as -> _. congruence.
        -- injection Heq as -> ->. apply Forall_cons_1 in Hbefore as [_ Hbefore].
           by exists before, after.
Qed.

Lemma scan_tilesets_None (tss : list T) tileId :
  scan_tilesets tss tileId = None <->
  Forall (fun t => isInTileset t tileId = false) tss.
Proof.
  induction tss as [|t tss IH]; simpl.
  - split; [constructor|done].
  - destruct (isInTileset t tileId) eqn:Hin.
    + split; [done|]. intros [Ht _]%Forall_cons_1. congruence.
    + rewrite IH. split.
      * by constructor.
      * by intros [_ ?]%Forall_cons_1.
Qed.

(** C7.  [_getTileset] returns the first tileset of the list, in order,
    whose [isInTileset] accepts the tile ID, and null when none does; and
    when none does, [_drawTile] does not guard the null: it throws a
    TypeError at the call of [getBlockTransferParams], before anything is
    drawn. *)
Theorem getTileset_first_match_else_fatal l tileId :
  (forall ts,
     _getTileset l tileId = Some ts <->
     exists before after,
       tilesets l = before ++ ts :: after /\
       isInTileset ts tileId = true /\
       Forall (fun t => isInTileset t tileId = false) before) /\
  (_getTileset l tileId = None <->
     Forall (fun t => isInTileset t tileId = false) (tilesets l)) /\
  (Forall (fun t => isInTileset t tileId = false) (tilesets l) ->
     forall x y, exists msg,
       _drawTile tileId x y l = (Thrown (TypeError msg), l)).
Proof.
  split; [|split].
  - intros ts. apply scan_tilesets_Some.
  - apply scan_tilesets_None.
  - intros Hnone%scan_tilesets_None x y.
    unfold _drawTile; run. unfold _getTileset. rewrite Hnone. eauto.
Qed.

(** *** Property flags *)

(** C10.  A layer whose data has no [properties] reads an empty bag, and
    the four flag predicates return false on it (none of them fails). *)
Theorem flags_false_without_properties l :
  Data.properties (_data l) = None ->
  properties l = ∅ /\
  isPlaneLayer l = false /\
  isCollisionLayer l = false /\
  isRegionLayer l = false /\
  isUpperLayer l = Done false.
Proof.
  intros Hnone.
  assert (Hbag : properties l = ∅) by (unfold properties; by rewrite Hnone).
  unfold isPlaneLayer, isCollisionLayer, isRegionLayer, isUpperLayer, prop.
  rewrite Hbag, !lookup_empty; simpl.
  by rewrite andb_false_r.
Qed.

(** *** Loop wrapping *)

(** C8.  The tiling sprite [_renderLoopLayer] creates shows the backing
    bitmap; it is as wide as the viewport if the map loops horizontally
    and as wide as the backing bitmap otherwise, and as high as the
    viewport if the map loops vertically and as high as the backing bitmap
    otherwise.  On a map that loops horizontally only it is therefore
    viewport-wide and bitmap-high. *)
Theorem loop_surface_size l bm :
  _layerBitmap l = Some bm ->
  exists l' s,
    _renderLoopLayer E l = (Done tt, l') /\
    the_tilingSprite l' = Some s /\
    ts_bitmap s = Some LayerBitmapRef /\
    _layerBitmap l' = Some bm /\
    ts_width s =
      (if gameMap_isLoopHorizontal E then Graphics_width E else bmp_width bm) /\
    ts_height s =
      (if gameMap_isLoopVertical E then Graphics_height E else bmp_height bm) /\
    (gameMap_isLoopHorizontal E = true ->
     gameMap_isLoopVertical E = false ->
     ts_width s = Graphics_width E /\ ts_height s = bmp_height bm).
Proof.
  intros Hbm.
  exists (attach_tilingSprite (loop_sprite E bm) l), (loop_sprite E bm).
  split; [by apply renderLoopLayer_run|].
  split; [apply the_tilingSprite_attach|].
  split; [done|]. split; [done|].
  unfold loop_sprite, loop_width, loop_height; simpl.
  split; [done|]. split; [done|].
  by intros -> ->.
Qed.

(** *** The scroll origin *)

Lemma update_tilingSprite_run (f : TilingSprite -> TilingSprite) l r :
  _tilingSprite l = Some r ->
  update_tilingSprite f l = (Done tt, set_sprites (alter f r (sprites l)) l).
Proof. intros Hr. unfold update_tilingSprite; run. by rewrite Hr. Qed.

Lemma moveLoopLayer_null l x y :
  _tilingSprite l = None -> moveLoopLayer x y l = (Done tt, l).
Proof.
  intros Hnull. unfold moveLoopLayer, the_tilingSprite; run.
  by rewrite Hnull.
Qed.

Lemma moveLoopLayer_run l r s x y :
  _tilingSprite l = Some r ->
  sprites l !! r = Some s ->
  moveLoopLayer x y l =
    (Done tt, set_sprites (alter (scrolled_to x y) r (sprites l)) l).
Proof.
  intros Hr Hs. unfold moveLoopLayer, the_tilingSprite, update_tilingSprite; run.
  repeat (first [rewrite Hr | rewrite Hs]; simpl).
  unfold set_sprites; simpl. by rewrite list_alter_alter_eq.
Qed.

Lemma moveLoopLayer_again l l' x y :
  moveLoopLayer x y l = (Done tt, l') ->
  moveLoopLayer x y l' = (Done tt, l').
Proof.
  destruct (_tilingSprite l) as [r|] eqn:Hr.
  - destruct (sprites l !! r) as [s|] eqn:Hs.
    + rewrite (moveLoopLayer_run l r s) by done. intros [= <-].
      rewrite (moveLoopLayer_run _ r (scrolled_to x y s)); simpl; try done.
      * rewrite list_alter_alter_eq.
        by rewrite (list_alter_ext _ (scrolled_to x y) _ (sprites l) r).
      * by rewrite list_lookup_alter_eq, Hs.
    + unfold moveLoopLayer, the_tilingSprite; run.
      rewrite Hr; simpl. rewrite Hs. intros [= <-].
      simpl. rewrite Hr; simpl. by rewrite Hs.
  - rewrite moveLoopLayer_null by done. intros [= <-].
    by apply moveLoopLayer_null.
Qed.

Lemma moveLoopLayer_returns l x y :
  exists l', moveLoopLayer x y l = (Done tt, l').
Proof.
  destruct (_tilingSprite l) as [r|] eqn:Hr.
  - destruct (sprites l !! r) as [s|] eqn:Hs.
    + rewrite (moveLoopLayer_run l r s) by done. eauto.
    + unfold moveLoopLayer, the_tilingSprite; run.
      rewrite Hr; simpl. rewrite Hs. eauto.
  - rewrite moveLoopLayer_null by done. eauto.
Qed.

End LayerFacts.

Section Scrolling.

Context {T : Type} `{TilesetOps T}.
Variable E : Ambient.

Implicit Types (l : Layer T) (s : TilingSprite).

(** C9.  [moveLoopLayer(x, y)] changes nothing when the layer has no
    tiling sprite; when it has one, the sprite's origin becomes exactly
    (x, y) and nothing else changes; and any number n >= 1 of calls with
    the same arguments leaves the layer as one call does. *)
Theorem moveLoopLayer_absolute_idempotent l (x y : Js.num) :
  (_tilingSprite l = None -> moveLoopLayer x y l = (Done tt, l)) /\
  (forall r s,
     _tilingSprite l = Some r ->
     sprites l !! r = Some s ->
     exists l',
       moveLoopLayer x y l = (Done tt, l') /\
       l' = set_sprites (<[r := scrolled_to x y s]> (sprites l)) l /\
       the_tilingSprite l' = Some (scrolled_to x y s) /\
       origin_x (scrolled_to x y s) = x /\
       origin_y (scrolled_to x y s) = y) /\
  (forall n, (1 <= n)%nat ->
     repeat_call n (moveLoopLayer x y) l = moveLoopLayer x y l).
Proof.
  split; [apply moveLoopLayer_null|split].
  - intros r s Hr Hs. eexists. split; [by apply (moveLoopLayer_run l r s)|].
    rewrite (alter_insert _ r s) by done. split; [done|]. split; [|done].
    unfold the_tilingSprite; simpl. rewrite Hr; simpl.
    apply list_lookup_insert_eq. by apply lookup_lt_Some in Hs.
  - intros n Hn. destruct n as [|n]; [lia|]. clear Hn.
    destruct (moveLoopLayer_returns l x y) as [l' Hl'].
    rewrite Hl'. simpl. unfold bind at 1. rewrite Hl'.
    induction n as [|n IH]; simpl; [done|].
    unfold bind at 1. by rewrite (moveLoopLayer_again l l' x y Hl').
Qed.

(** *** The per-frame update *)

Lemma with_sprite_same r s l :
  sprites l !! r = Some s -> with_sprite r s l = l.
Proof.
  intros Hs. unfold with_sprite, set_sprites.
  rewrite list_insert_id by done. by destruct l.
Qed.

Lemma update_null l : _tilingSprite l = None -> update l = (Done tt, l).
Proof.
  intros Hnull. unfold update, _updatePlane, the_tilingSprite; run.
  by rewrite Hnull.
Qed.

Lemma update_run l r s mOx mOy :
  _tilingSprite l = Some r ->
  sprites l !! r = Some s ->
  ts_bitmap s ≫= bitmap_size l = Some (mOx, mOy) ->
  update l =
    (Done tt,
     with_sprite r
       (scrolled_to (scroll_axis (origin_x s) (xSpeed l) mOx)
                    (scroll_axis (origin_y s) (ySpeed l) mOy) s) l).
Proof.
  intros Hr Hs Hsize.
  unfold update, _updatePlane, the_tilingSprite, update_tilingSprite.
  unfold bind at 1, get at 1. cbv zeta.
  rewrite Hr; simpl. rewrite Hs, Hsize.
  fold (xSpeed l) (ySpeed l). unfold scroll_axis, with_sprite.
  destruct (Js.num_truthy (xSpeed l)), (Js.num_truthy (ySpeed l)); run;
    repeat (rewrite Hr; simpl).
  - rewrite list_alter_alter_eq. unfold set_sprites; simpl.
    by rewrite (alter_insert _ r s).
  - rewrite (alter_insert _ r s) by done. unfold set_sprites; simpl.
    by destruct s.
  - rewrite (alter_insert _ r s) by done. unfold set_sprites; simpl.
    by destruct s.
  - replace (scrolled_to (origin_x s) (origin_y s) s) with s by (by destruct s).
    fold (with_sprite r s l). by rewrite with_sprite_same.
Qed.

(** With a positive speed and an origin inside the bitmap, [n] frames
    advance the origin by [n] times the speed, modulo the bitmap's size. *)
Lemma update_repeated (n : nat) l r s mOx mOy ox v :
  _tilingSprite l = Some r ->
  sprites l !! r = Some s ->
  ts_bitmap s ≫= bitmap_size l = Some (mOx, mOy) ->
  xSpeed l = Js.Fin v ->
  Js.num_truthy (ySpeed l) = false ->
  0 <= v ->
  origin_x s = Js.Fin ox ->
  0 <= ox < mOx ->
  exists l' s',
    repeat_call n update l = (Done tt, l') /\
    the_tilingSprite l' = Some s' /\
    origin_x s' = Js.Fin ((ox + Z.of_nat n * v) mod mOx) /\
    origin_y s' = origin_y s.
Proof.
  intros Hr Hs Hsize Hx Hy Hv. revert l s ox Hr Hs Hsize Hx Hy.
  induction n as [|n IH]; intros l s ox Hr Hs Hsize Hx Hy Hox Hrange.
  - exists l, s. split; [done|].
    split; [unfold the_tilingSprite; rewrite Hr; simpl; done|].
    split; [|done].
    rewrite Hox. f_equal. rewrite Z.mod_small; lia.
  - cbn [repeat_call]. unfold bind.
    rewrite (update_run l r s mOx mOy) by done.
    set (s1 := scrolled_to _ _ s).
    assert (Hs1x : origin_x s1 = Js.Fin ((ox + v) mod mOx)).
    { subst s1. unfold scrolled_to, scroll_axis; simpl.
      rewrite Hx, Hox; simpl.
      destruct (v =? 0) eqn:Hv0; simpl.
      - apply Z.eqb_eq in Hv0 as ->. f_equal.
        rewrite Z.add_0_r, Z.mod_small; lia.
      - rewrite (proj2 (Z.eqb_neq mOx 0)) by lia.
        f_equal. apply Z.rem_mod_nonneg; lia. }
    assert (Hs1y : origin_y s1 = origin_y s).
    { subst s1. unfold scrolled_to, scroll_axis; simpl. by rewrite Hy. }
    destruct (IH (with_sprite r s1 l) s1 ((ox + v) mod mOx))
      as (l' & s' & Hrun & Hthe & Hx' & Hy'); try done.
    + simpl. apply list_lookup_insert_eq. by apply lookup_lt_Some in Hs.
    + apply Z.mod_pos_bound. lia.
    + exists l', s'. split; [done|]. split; [done|]. split; [|congruence].
      rewrite Hx'. f_equal.
      rewrite Zplus_mod_idemp_l. f_equal. lia.
Qed.

(** C4 (as amended).  On a layer with a tiling sprite, [update] replaces
    the origin, on each axis whose parsed speed is a non-zero integer, by
    the remainder of (origin + speed) divided by the size of the sprite's
    bitmap on that axis, a remainder that takes the sign of the dividend:
    for a positive size the new origin lies strictly between -size and
    size, and within [0, size) when origin + speed is not negative.  An
    axis whose speed property is missing, does not start with a number, or
    parses to zero keeps its origin.  With planeX = 2, planeY = 0 and a
    bitmap 100 wide, 60 updates take the origin from (0, oy) to
    (20, oy). *)
Theorem update_scrolls_by_signed_remainder l r s mOx mOy :
  _tilingSprite l = Some r ->
  sprites l !! r = Some s ->
  ts_bitmap s ≫= bitmap_size l = Some (mOx, mOy) ->
  0 < mOx ->
  0 < mOy ->
  (exists l' s',
     update l = (Done tt, l') /\
     the_tilingSprite l' = Some s' /\
     (forall ox v,
        origin_x s = Js.Fin ox -> xSpeed l = Js.Fin v -> v <> 0 ->
        origin_x s' = Js.Fin (Z.rem (ox + v) mOx) /\
        - mOx < Z.rem (ox + v) mOx < mOx /\
        (0 <= ox + v ->
         Z.rem (ox + v) mOx = (ox + v) mod mOx /\
         0 <= Z.rem (ox + v) mOx < mOx)) /\
     (forall oy v,
        origin_y s = Js.Fin oy -> ySpeed l = Js.Fin v -> v <> 0 ->
        origin_y s' = Js.Fin (Z.rem (oy + v) mOy) /\
        - mOy < Z.rem (oy + v) mOy < mOy /\
        (0 <= oy + v ->
         Z.rem (oy + v) mOy = (oy + v) mod mOy /\
         0 <= Z.rem (oy + v) mOy < mOy)) /\
     (properties l !! "planeX" = None \/ xSpeed l = Js.NaN \/
      xSpeed l = Js.Fin 0 ->
      origin_x s' = origin_x s) /\
     (properties l !! "planeY" = None \/ ySpeed l = Js.NaN \/
      ySpeed l = Js.Fin 0 ->
      origin_y s' = origin_y s)) /\
  (xSpeed l = Js.Fin 2 -> ySpeed l = Js.Fin 0 -> mOx = 100 ->
   origin_x s = Js.Fin 0 ->
   exists l' s',
     repeat_call 60 update l = (Done tt, l') /\
     the_tilingSprite l' = Some s' /\
     origin_x s' = Js.Fin 20 /\
     origin_y s' = origin_y s).
Proof.
  intros Hr Hs Hsize Hx Hy.
  assert (Hrem : forall a m, 0 < m ->
    - m < Z.rem a m < m /\
    (0 <= a -> Z.rem a m = a mod m /\ 0 <= Z.rem a m < m)).
  { intros a m Hm. split.
    - assert (Z.abs (Z.rem a m) < Z.abs m) by (apply Z.rem_bound_abs; lia).
      lia.
    - intros Ha. rewrite Z.rem_mod_nonneg by lia.
      split; [done|]. apply Z.mod_pos_bound; lia. }
  assert (Habsent : forall key,
    properties l !! key = None -> Js.parseInt (prop (properties l) key) = Js.NaN).
  { intros key Hkey. unfold prop. by rewrite Hkey. }
  split.
  - eexists _, _. split; [by apply (update_run l r s mOx mOy)|].
    split.
    { unfold the_tilingSprite; simpl. rewrite Hr; simpl.
      apply list_lookup_insert_eq. by apply lookup_lt_Some in Hs. }
    unfold scrolled_to, scroll_axis; simpl.
    split; [|split; [|split]].
    + intros ox v -> -> Hv. simpl.
      rewrite (proj2 (Z.eqb_neq v 0)), (proj2 (Z.eqb_neq mOx 0)) by lia.
      split; [done|]. by apply Hrem.
    + intros oy v -> -> Hv. simpl.
      rewrite (proj2 (Z.eqb_neq v 0)), (proj2 (Z.eqb_neq mOy 0)) by lia.
      split; [done|]. by apply Hrem.
    + intros [Hnone%Habsent|[Hnan|Hzero]].
      * unfold xSpeed. by rewrite Hnone.
      * by rewrite Hnan.
      * by rewrite Hzero.
    + intros [Hnone%Habsent|[Hnan|Hzero]].
      * unfold ySpeed. by rewrite Hnone.
      * by rewrite Hnan.
      * by rewrite Hzero.
  - intros Hvx Hvy -> Hox.
    destruct (update_repeated 60 l r s 100 mOy 0 2)
      as (l' & s' & Hrun & Hthe & Hx' & Hy'); try done.
    { by rewrite Hvy. }
    by exists l', s'.
Qed.

End Scrolling.

Section Rendering.

Context {T : Type} `{TilesetOps T}.
Variable E : Ambient.

Implicit Types (l : Layer T) (s : TilingSprite).

(** *** Dispatch on the layer type *)

Lemma tile_layer_only l :
  isTileLayer l = true ->
  isObjectLayer l = false /\ isImageLayer l = false /\ isPlaneLayer l = false.
Proof.
  unfold isTileLayer, isObjectLayer, isPlaneLayer, isImageLayer.
  by intros ->%String.eqb_eq.
Qed.

Lemma object_layer_only l :
  isObjectLayer l = true ->
  isTileLayer l = false /\ isImageLayer l = false /\ isPlaneLayer l = false.
Proof.
  unfold isTileLayer, isObjectLayer, isPlaneLayer, isImageLayer.
  by intros ->%String.eqb_eq.
Qed.

Lemma image_layer_only l :
  isImageLayer l = true -> isTileLayer l = false /\ isObjectLayer l = false.
Proof.
  unfold isTileLayer, isObjectLayer, isImageLayer.
  by intros ->%String.eqb_eq.
Qed.

Lemma plane_layer_is_image l : isPlaneLayer l = true -> isImageLayer l = true.
Proof. unfold isPlaneLayer. by intros [[? _]%andb_prop _]%andb_prop. Qed.

(** The classification of a layer is that of its data. *)
Lemma kind_of_config l l' :
  config l' = config l ->
  isTileLayer l' = isTileLayer l /\
  isObjectLayer l' = isObjectLayer l /\
  isImageLayer l' = isImageLayer l /\
  isPlaneLayer l' = isPlaneLayer l.
Proof.
  intros Hdata%config_data.
  unfold isPlaneLayer, isTileLayer, isObjectLayer, isImageLayer, properties.
  by rewrite Hdata.
Qed.

Lemma config_ensure_backing l : config (ensure_backing l) = config l.
Proof. done. Qed.

(** One [if (this.isX()) { this._renderX(); }] statement, taken or
    skipped. *)
Lemma strategy_skipped (f : Layer T -> bool) (m k : M (Layer T) unit) l :
  f l = false ->
  (b <- gets f ;; when b m ;; k) l = k l.
Proof. intros Hf. unfold bind, gets, when, ret. by rewrite Hf. Qed.

Lemma strategy_taken (f : Layer T -> bool) (m k : M (Layer T) unit) l :
  f l = true ->
  (b <- gets f ;; when b m ;; k) l = (m ;; k) l.
Proof. intros Hf. unfold bind at 1, gets, when. by rewrite Hf. Qed.

Lemma last_strategy_skipped (f : Layer T -> bool) (m : M (Layer T) unit) l :
  f l = false ->
  (b <- gets f ;; when b m) l = (Done tt, l).
Proof. intros Hf. unfold bind, gets, when, ret. by rewrite Hf. Qed.

Lemma last_strategy_taken (f : Layer T -> bool) (m : M (Layer T) unit) l :
  f l = true ->
  (b <- gets f ;; when b m) l = m l.
Proof. intros Hf. unfold bind, gets, when. by rewrite Hf. Qed.

(** [renderLayer] as its first statement followed by the one strategy of
    the layer's type, or by none. *)
Lemma renderLayer_dispatch l :
  renderLayer E l =
    (if isObjectLayer l then _renderObjectLayer E
     else if isTileLayer l then _renderTileLayer E
     else if isImageLayer l then
       (if isPlaneLayer l then _renderPlaneLayer E else _renderImageLayer E)
     else ret tt) (ensure_backing l).
Proof.
  unfold renderLayer.
  unfold bind at 1, modify at 1.
  assert (Hfirst :
    set_layerBitmap
      match _layerBitmap l with
      | Some bm => Some bm
      | None => Some (new_Bitmap (gridHorz l * tileWidth l)
                                 (gridVert l * tileHeight l))
      end l = ensure_backing l).
  { unfold ensure_backing, backing_bitmap. by destruct (_layerBitmap l). }
  rewrite Hfirst. clear Hfirst.
  set (l0 := ensure_backing l).
  assert (Hkind : forall o l' (m : M (Layer T) unit),
    keeps_config m -> m l0 = (o, l') ->
      isTileLayer l' = isTileLayer l /\
      isObjectLayer l' = isObjectLayer l /\
      isImageLayer l' = isImageLayer l /\
      isPlaneLayer l' = isPlaneLayer l).
  { intros o l' m Hm Hrun. apply kind_of_config.
    rewrite (Hm _ _ _ Hrun). apply config_ensure_backing. }
  destruct (kind_of_config l l0 (config_ensure_backing l))
    as (Ht0 & Ho0 & Hi0 & Hp0).
  assert (Hplane_image : isImageLayer l = false -> isPlaneLayer l = false).
  { intros Himg. destruct (isPlaneLayer l) eqn:Hp; [|done].
    apply plane_layer_is_image in Hp. congruence. }
  destruct (isObjectLayer l) eqn:Hobj.
  - destruct (object_layer_only l Hobj) as (Htile & Himg & Hplane).
    rewrite strategy_taken by done. unfold bind at 1.
    destruct (_renderObjectLayer E l0) as [[[]|e] l1] eqn:Hrun; [|done].
    destruct (Hkind _ _ _ (keeps_renderObjectLayer E) Hrun)
      as (Ht & Ho & Hi & Hp).
    rewrite strategy_skipped by congruence.
    rewrite strategy_skipped by (by rewrite Hi, Himg).
    apply last_strategy_skipped. congruence.
  - rewrite strategy_skipped by done.
    destruct (isTileLayer l) eqn:Htile.
    + destruct (tile_layer_only l Htile) as (_ & Himg & Hplane).
      rewrite strategy_taken by done. unfold bind at 1.
      destruct (_renderTileLayer E l0) as [[[]|e] l1] eqn:Hrun; [|done].
      destruct (Hkind _ _ _ (keeps_renderTileLayer E) Hrun)
        as (Ht & Ho & Hi & Hp).
      rewrite strategy_skipped by (by rewrite Hi, Himg).
      apply last_strategy_skipped. congruence.
    + rewrite strategy_skipped by done.
      destruct (isImageLayer l) eqn:Himg.
      * destruct (isPlaneLayer l) eqn:Hplane.
        -- rewrite strategy_skipped by (by rewrite Hi0, Hp0).
           by apply last_strategy_taken.
        -- rewrite strategy_taken by (by rewrite Hi0, Hp0). unfold bind at 1.
           destruct (_renderImageLayer E l0) as [[[]|e] l1] eqn:Hrun; [|done].
           destruct (Hkind _ _ _ (keeps_renderImageLayer E) Hrun)
             as (Ht & Ho & Hi & Hp).
           apply last_strategy_skipped. congruence.
      * rewrite strategy_skipped by (by rewrite Hi0).
        apply last_strategy_skipped. rewrite Hp0. by apply Hplane_image.
Qed.

(** *** The passes only draw *)

Lemma add_blits_nil (bm : Bitmap) : add_blits bm [] = bm.
Proof. destruct bm. unfold add_blits; simpl. by rewrite app_nil_r. Qed.

Lemma add_blits_app (bm : Bitmap) (b1 b2 : list BltArgs) :
  add_blits (add_blits bm b1) b2 = add_blits bm (b1 ++ b2).
Proof. unfold add_blits; simpl. by rewrite app_assoc. Qed.

Lemma drawn_nil l : drawn [] l = l.
Proof.
  destruct l as [? ? ? ? ? ? ? ? ? [bm|] ? ?]; unfold drawn, set_layerBitmap;
    simpl; [|done].
  by rewrite add_blits_nil.
Qed.

Lemma drawn_drawn (b1 b2 : list BltArgs) l :
  drawn b2 (drawn b1 l) = drawn (b1 ++ b2) l.
Proof.
  unfold drawn, set_layerBitmap; simpl.
  destruct (_layerBitmap l); [|done]. by rewrite add_blits_app.
Qed.

Lemma only_draws_ret {A : Type} (a : A) : only_draws (T := T) (ret a).
Proof. intros l o l' [= _ <-]. exists []. by rewrite drawn_nil. Qed.

Lemma only_draws_bind {A B : Type} (m : M (Layer T) A)
    (k : A -> M (Layer T) B) :
  only_draws m -> (forall a, only_draws (k a)) ->
  only_draws (T := T) (bind m k).
Proof.
  intros Hm Hk l o l'. unfold bind.
  destruct (m l) as [[a|e] l1] eqn:Hml; intros Hrun.
  - destruct (Hm l _ _ Hml) as [b1 ->].
    destruct (Hk a _ _ _ Hrun) as [b2 ->].
    exists (b1 ++ b2). apply drawn_drawn.
  - injection Hrun as <- <-. by apply (Hm l (Thrown e)).
Qed.

Lemma only_draws_get_bind {A : Type} (k : Layer T -> M (Layer T) A) :
  (forall l0, only_draws (k l0)) -> only_draws (T := T) (bind get k).
Proof. intros Hk l o l'. unfold bind, get. apply Hk. Qed.

Lemma drawTile_run tileId x y l :
  _drawTile tileId x y l =
    match _getTileset l tileId, _layerBitmap l with
    | Some tileset, Some _ =>
        (Done tt, drawn [getBlockTransferParams tileset tileId x y] l)
    | Some _, None => (Thrown (TypeError "dest is undefined"), l)
    | None, _ => (Thrown (TypeError "tileset is null"), l)
    end.
Proof.
  unfold _drawTile; run. destruct (_getTileset l tileId); [|done].
  unfold drawn. by destruct (_layerBitmap l).
Qed.

Lemma only_draws_drawTile tileId x y :
  only_draws (T := T) (_drawTile tileId x y).
Proof.
  intros l o l'. rewrite drawTile_run.
  destruct (_getTileset l tileId) as [ts|], (_layerBitmap l) as [bm|] eqn:Hbm;
    intros [= _ <-]; eauto; exists []; by rewrite drawn_nil.
Qed.

Lemma only_draws_draw_calls draws : only_draws (T := T) (draw_calls draws).
Proof.
  induction draws as [|[tileId [x y]] draws IH]; simpl.
  - apply only_draws_ret.
  - apply only_draws_bind; [apply only_draws_drawTile|done].
Qed.

Lemma only_draws_tile_loop tiles i : only_draws (T := T) (tile_loop i tiles).
Proof.
  revert i. induction tiles as [|tileId tiles IH]; intros i; simpl.
  - apply only_draws_ret.
  - apply only_draws_get_bind. intros l0. cbv zeta.
    apply only_draws_bind; [|done].
    destruct (tileId =? 0); [apply only_draws_ret|apply only_draws_drawTile].
Qed.

Lemma only_draws_object_loop objects :
  only_draws (T := T) (object_loop objects).
Proof.
  induction objects as [|o objects IH]; simpl.
  - apply only_draws_ret.
  - apply only_draws_bind; [|done].
    destruct (Obj.gid o =? 0); [apply only_draws_ret|apply only_draws_drawTile].
Qed.

(** *** The strategies, run *)

Lemma renderPlaneLayer_run l :
  _renderPlaneLayer E l = (Done tt, attach_tilingSprite (plane_sprite E l) l).
Proof.
  unfold _renderPlaneLayer, create_tilingSprite, update_tilingSprite,
    addChild_tilingSprite; run.
  by rewrite alter_newest.
Qed.

Lemma renderImageLayer_run l bm :
  _layerBitmap l = Some bm ->
  _renderImageLayer E l =
    (Done tt, set_bitmap (Some LayerBitmapRef) (drawn [image_blit E l] l)).
Proof.
  intros Hbm. unfold _renderImageLayer, assign_bitmap; run.
  rewrite Hbm; simpl. unfold drawn. by rewrite Hbm.
Qed.

(** Both passes end in [_renderLoopLayer]: the test [this.isLoop] reads
    the method, which is an object, and not its result. *)
Lemma renderTileLayer_run l tiles :
  tilesData l = Some tiles ->
  _renderTileLayer E l = (tile_loop 0 tiles ;; _renderLoopLayer E) l.
Proof.
  intros Htiles. unfold _renderTileLayer.
  unfold bind at 1, get at 1. by rewrite Htiles.
Qed.

Lemma renderObjectLayer_run l objects :
  objectsData l = Some objects ->
  _renderObjectLayer E l = (object_loop objects ;; _renderLoopLayer E) l.
Proof.
  intros Hobjects. unfold _renderObjectLayer.
  unfold bind at 1, get at 1. by rewrite Hobjects.
Qed.

(** A pass that returns is followed by the wrapping. *)
Lemma pass_then_wrap (pass : M (Layer T) unit) l bm l' :
  only_draws pass ->
  _layerBitmap l = Some bm ->
  (pass ;; _renderLoopLayer E) l = (Done tt, l') ->
  exists blits,
    l' = attach_tilingSprite (loop_sprite E (add_blits bm blits))
           (drawn blits l).
Proof.
  intros Hpass Hbm. unfold bind.
  destruct (pass l) as [[[]|e] l1] eqn:Hrun; [|done].
  destruct (Hpass _ _ _ Hrun) as [blits ->].
  rewrite (renderLoopLayer_run E _ (add_blits bm blits)).
  - intros [= <-]. by exists blits.
  - unfold drawn; simpl. by rewrite Hbm.
Qed.

(** *** The passes issue the draw calls of the specification *)

(** The draw calls of the specification, entry by entry. *)
Lemma spec_tile_draws_elem (g tw th : Z) (tiles : list Z) (d : Draw) :
  d ∈ spec_tile_draws g tw th tiles <->
  exists i : nat,
    tiles !! i = Some d.1 /\ d.1 <> 0 /\
    d.2 = ((Z.of_nat i mod g) * tw, (Z.of_nat i / g) * th).
Proof.
  unfold spec_tile_draws. rewrite list_elem_of_omap. split.
  - intros (o & (i & tileId & -> & Hi)%elem_of_lookup_imap & Ho).
    simpl in Ho. destruct (tileId =? 0) eqn:Hzero; [done|].
    injection Ho as <-. exists i. by apply Z.eqb_neq in Hzero.
  - intros (i & Hi & Hne & Hd). exists (Some d). split; [|done].
    apply elem_of_lookup_imap. exists i, d.1. split; [|done].
    rewrite (proj2 (Z.eqb_neq _ _) Hne). unfold spec_tile_destination.
    rewrite <- Hd. by destruct d.
Qed.

Lemma spec_object_draws_elem (objects : list Obj.t) (d : ObjectDraw) :
  d ∈ spec_object_draws objects <->
  exists o,
    o ∈ objects /\ Obj.gid o <> 0 /\
    d = (Obj.gid o,
         (Js.Math_round (Obj.x o),
          Js.Math_round (Js.sub (Obj.y o) (Obj.height o)))).
Proof.
  unfold spec_object_draws. rewrite list_elem_of_omap. split.
  - intros (o & Ho & Hd). exists o.
    destruct (Obj.gid o =? 0) eqn:Hzero; [done|].
    injection Hd as <-. by apply Z.eqb_neq in Hzero.
  - intros (o & Ho & Hne & ->). exists o. split; [done|].
    by rewrite (proj2 (Z.eqb_neq _ _) Hne).
Qed.

Lemma config_fields l l' :
  config l' = config l ->
  _gridHorz l' = _gridHorz l /\ tileWidth l' = tileWidth l /\
  tileHeight l' = tileHeight l /\ tilesets l' = tilesets l.
Proof.
  unfold config, tileWidth, tileHeight, tilesets.
  by intros [= _ -> -> -> -> _ _].
Qed.

Lemma tile_loop_spec tiles (k : nat) l g :
  _gridHorz l = Some g ->
  0 < g ->
  tile_loop (Z.of_nat k) tiles l =
    draw_calls
      (omap id
         (imap (fun i tileId =>
                  if tileId =? 0 then None
                  else Some (tileId,
                             spec_tile_destination g (tileWidth l)
                               (tileHeight l) (k + i)))
               tiles)) l.
Proof.
  revert k l. induction tiles as [|tileId tiles IH]; intros k l Hg Hpos; [done|].
  cbn [tile_loop]. unfold bind at 1, get at 1. cbv zeta.
  rewrite Hg. cbn [field_num Js.rem Js.floor_div Js.mul].
  rewrite (proj2 (Z.eqb_neq g 0)) by lia.
  rewrite imap_cons.
  assert (Hrest :
    imap ((fun i tileId0 =>
             if tileId0 =? 0 then None
             else Some (tileId0,
                        spec_tile_destination g (tileWidth l) (tileHeight l)
                          (k + i))) ∘ S) tiles
    = imap (fun i tileId0 =>
             if tileId0 =? 0 then None
             else Some (tileId0,
                        spec_tile_destination g (tileWidth l) (tileHeight l)
                          (S k + i))) tiles).
  { apply imap_ext. intros i x _. simpl. by rewrite Nat.add_succ_r. }
  rewrite Hrest. clear Hrest.
  replace (Z.of_nat k + 1) with (Z.of_nat (S k)) by lia.
  destruct (tileId =? 0) eqn:Hzero.
  - unfold bind at 1, ret at 1. cbn [omap list_omap id]. by apply IH.
  - cbn [omap list_omap id draw_calls].
    unfold spec_tile_destination at 1. rewrite Nat.add_0_r.
    rewrite Z.rem_mod_nonneg by lia.
    unfold bind.
    destruct (_drawTile _ _ _ l) as [[[]|e] l1] eqn:Hdraw; [|done].
    apply keeps_drawTile, config_fields in Hdraw as (Hg1 & Hw1 & Hh1 & _).
    rewrite (IH (S k) l1) by congruence. by rewrite Hw1, Hh1.
Qed.

Lemma object_loop_spec objects l :
  object_loop objects l = object_draw_calls (spec_object_draws objects) l.
Proof.
  revert l. induction objects as [|o objects IH]; intros l; [done|].
  cbn [object_loop]. cbv zeta. unfold spec_object_draws. cbn [omap list_omap].
  fold (spec_object_draws objects).
  destruct (Obj.gid o =? 0).
  - unfold bind at 1, ret at 1. apply IH.
  - cbn [object_draw_calls]. unfold bind.
    by destruct (_drawTile _ _ _ l) as [[[]|e] l1].
Qed.

(** Draw calls whose tiles all resolve add their block transfers to the
    backing bitmap, in order. *)
Lemma draw_calls_run draws blits l bm :
  _layerBitmap l = Some bm ->
  Forall2 (fun d b => draw_params l d = Some b) draws blits ->
  draw_calls draws l = (Done tt, drawn blits l).
Proof.
  intros Hbm Hall. revert bm Hbm.
  assert (Hgen : forall l0 bm,
    tilesets l0 = tilesets l -> _layerBitmap l0 = Some bm ->
    draw_calls draws l0 = (Done tt, drawn blits l0)).
  { induction Hall as [|[tileId [x y]] b draws blits Hb Hall IH];
      intros l0 bm Hts Hbm.
    - simpl. unfold ret. by rewrite drawn_nil.
    - cbn [draw_calls]. unfold bind at 1. rewrite drawTile_run.
      unfold draw_params, _getTileset in Hb. simpl in Hb.
      unfold _getTileset. rewrite Hts, Hbm.
      destruct (scan_tilesets (tilesets l) tileId) as [ts|]; [|done].
      injection Hb as <-.
      rewrite (IH _ (add_blits bm [getBlockTransferParams ts tileId
                                     (Js.Fin x) (Js.Fin y)])).
      + by rewrite drawn_drawn.
      + done.
      + unfold drawn; simpl. by rewrite Hbm. }
  intros bm Hbm. by apply (Hgen l bm).
Qed.

Lemma object_draw_calls_run draws blits l bm :
  _layerBitmap l = Some bm ->
  Forall2 (fun d b => object_draw_params l d = Some b) draws blits ->
  object_draw_calls draws l = (Done tt, drawn blits l).
Proof.
  intros Hbm Hall. revert bm Hbm.
  assert (Hgen : forall l0 bm,
    tilesets l0 = tilesets l -> _layerBitmap l0 = Some bm ->
    object_draw_calls draws l0 = (Done tt, drawn blits l0)).
  { induction Hall as [|[tileId [x y]] b draws blits Hb Hall IH];
      intros l0 bm Hts Hbm.
    - simpl. unfold ret. by rewrite drawn_nil.
    - cbn [object_draw_calls]. unfold bind at 1. rewrite drawTile_run.
      unfold object_draw_params, _getTileset in Hb. simpl in Hb.
      unfold _getTileset. rewrite Hts, Hbm.
      destruct (scan_tilesets (tilesets l) tileId) as [ts|]; [|done].
      injection Hb as <-.
      rewrite (IH _ (add_blits bm [getBlockTransferParams ts tileId x y])).
      + by rewrite drawn_drawn.
      + done.
      + unfold drawn; simpl. by rewrite Hbm. }
  intros bm Hbm. by apply (Hgen l bm).
Qed.

(** *** What [renderLayer] does to each kind of layer *)

(** C1.  On every tile layer and every object layer, a [renderLayer] that
    returns has wrapped the backing bitmap in a new tiling sprite and has
    not assigned it as the node's content, whether the map loops or not:
    [this.isLoop] is tested without being called. *)
Theorem tile_and_object_layers_wrapped_regardless l l' :
  isTileLayer l = true \/ isObjectLayer l = true ->
  renderLayer E l = (Done tt, l') ->
  exists bm,
    _layerBitmap l' = Some bm /\
    the_tilingSprite l' = Some (loop_sprite E bm) /\
    sprites l' = sprites l ++ [loop_sprite E bm] /\
    _tilingSprite l' = Some (length (sprites l)) /\
    bitmap l' = bitmap l.
Proof.
  intros Hkind. rewrite renderLayer_dispatch.
  assert (Hwrap : forall pass : M (Layer T) unit,
    only_draws pass ->
    (pass ;; _renderLoopLayer E) (ensure_backing l) = (Done tt, l') ->
    exists bm,
      _layerBitmap l' = Some bm /\
      the_tilingSprite l' = Some (loop_sprite E bm) /\
      sprites l' = sprites l ++ [loop_sprite E bm] /\
      _tilingSprite l' = Some (length (sprites l)) /\
      bitmap l' = bitmap l).
  { intros pass Hpass Hrun.
    destruct (pass_then_wrap pass (ensure_backing l) (backing_bitmap l) l'
                Hpass eq_refl Hrun)
      as [blits ->].
    exists (add_blits (backing_bitmap l) blits).
    split; [done|]. split; [apply the_tilingSprite_attach|done]. }
  destruct Hkind as [Htile|Hobj].
  - destruct (tile_layer_only l Htile) as (-> & _ & _). rewrite Htile.
    destruct (tilesData l) as [tiles|] eqn:Htiles.
    + rewrite (renderTileLayer_run _ tiles) by done.
      apply Hwrap, only_draws_tile_loop.
    + unfold _renderTileLayer, bind, get, throw, tilesData; simpl.
      unfold tilesData in Htiles. by rewrite Htiles.
  - rewrite Hobj.
    destruct (objectsData l) as [objects|] eqn:Hobjects.
    + rewrite (renderObjectLayer_run _ objects) by done.
      apply Hwrap, only_draws_object_loop.
    + unfold _renderObjectLayer, bind, get, throw, objectsData; simpl.
      unfold objectsData in Hobjects. by rewrite Hobjects.
Qed.

(** C2.  On a tile layer whose grid is [g > 0] tiles wide, [renderLayer]
    issues one draw call for each non-zero entry of [data.data], in the
    order of the indices, the entry at index [i] at pixel
    [((i mod g) * tileWidth, floor(i / g) * tileHeight)], and none for an
    entry equal to 0; when every drawn tile is in a tileset, the block
    transfers of these calls are what is added to the backing bitmap. *)
Theorem tile_pass_draws_row_major l g tiles :
  isTileLayer l = true ->
  _gridHorz l = Some g ->
  0 < g ->
  tilesData l = Some tiles ->
  let draws := spec_tile_draws g (tileWidth l) (tileHeight l) tiles in
  renderLayer E l
  = (draw_calls draws ;; _renderLoopLayer E) (ensure_backing l) /\
  (forall d : Draw,
     d ∈ draws <->
     exists i : nat,
       tiles !! i = Some d.1 /\ d.1 <> 0 /\
       d.2 = ((Z.of_nat i mod g) * tileWidth l,
              (Z.of_nat i / g) * tileHeight l)) /\
  (forall blits,
     Forall2 (fun d b => draw_params l d = Some b) draws blits ->
     exists l',
       renderLayer E l = (Done tt, l') /\
       _layerBitmap l' = Some (add_blits (backing_bitmap l) blits)).
Proof.
  intros Htile Hg Hpos Htiles.
  assert (Hpass :
    renderLayer E l =
      (draw_calls (spec_tile_draws g (tileWidth l) (tileHeight l) tiles) ;;
       _renderLoopLayer E) (ensure_backing l)).
  { rewrite renderLayer_dispatch.
    destruct (tile_layer_only l Htile) as (-> & _ & _). rewrite Htile.
    rewrite (renderTileLayer_run _ tiles) by done.
    unfold bind. by rewrite (tile_loop_spec tiles 0 _ g). }
  split; [done|]. split; [apply spec_tile_draws_elem|].
  intros blits Hblits. rewrite Hpass. unfold bind.
  rewrite (draw_calls_run _ blits _ (backing_bitmap l)); [|done|done].
  rewrite (renderLoopLayer_run E _ (add_blits (backing_bitmap l) blits))
    by done.
  by eexists.
Qed.

(** C3.  On an object layer, [renderLayer] issues one draw call for each
    entry of [data.objects] whose gid is not 0, in array order, at pixel
    [(round(x), round(y - height))], and none for an entry whose gid is 0;
    when every drawn tile is in a tileset, the block transfers of these
    calls are what is added to the backing bitmap.  The coordinates are
    doubles, [-] is their subtraction and [round] is [Math.round]: with
    x = 10.5, y = 50.4 and height = 20.2 the destination is (11, 30), and
    with x = 2.5, y = 0.7 and height = 0.2 it is (3, 0), the difference of
    the doubles being 0.49999999999999994. *)
Theorem object_pass_draws_rounded l objects :
  isObjectLayer l = true ->
  objectsData l = Some objects ->
  renderLayer E l =
    (object_draw_calls (spec_object_draws objects) ;; _renderLoopLayer E)
      (ensure_backing l) /\
  (forall d : ObjectDraw,
     d ∈ spec_object_draws objects <->
     exists o,
       o ∈ objects /\ Obj.gid o <> 0 /\
       d = (Obj.gid o,
            (Js.Math_round (Obj.x o),
             Js.Math_round (Js.sub (Obj.y o) (Obj.height o))))) /\
  (forall blits,
     Forall2 (fun d b => object_draw_params l d = Some b)
             (spec_object_draws objects) blits ->
     exists l',
       renderLayer E l = (Done tt, l') /\
       _layerBitmap l' = Some (add_blits (backing_bitmap l) blits)) /\
  spec_object_draws
    [ {| Obj.gid := 7; Obj.x := 10.5%float; Obj.y := 50.4%float;
         Obj.height := 20.2%float |};
      {| Obj.gid := 0; Obj.x := 1%float; Obj.y := 2%float;
         Obj.height := 1%float |};
      {| Obj.gid := 8; Obj.x := 2.5%float; Obj.y := 0.7%float;
         Obj.height := 0.2%float |} ]
  = [ (7, (Js.Fin 11, Js.Fin 30)); (8, (Js.Fin 3, Js.Fin 0)) ].
Proof.
  intros Hobj Hobjects.
  assert (Hpass :
    renderLayer E l =
      (object_draw_calls (spec_object_draws objects) ;; _renderLoopLayer E)
        (ensure_backing l)).
  { rewrite renderLayer_dispatch, Hobj.
    rewrite (renderObjectLayer_run _ objects) by done.
    unfold bind. by rewrite object_loop_spec. }
  split; [done|]. split; [apply spec_object_draws_elem|].
  split; [|vm_compute; reflexivity].
  intros blits Hblits. rewrite Hpass. unfold bind.
  rewrite (object_draw_calls_run _ blits _ (backing_bitmap l)); [|done|done].
  rewrite (renderLoopLayer_run E _ (add_blits (backing_bitmap l) blits))
    by done.
  by eexists.
Qed.

(** C5 (as amended).  On a layer whose type is none of the three known
    ones, [renderLayer] runs no strategy and returns; it creates no tiling
    sprite and leaves the node's content and children as they were.  Its
    one effect is its first statement: the layer gets a blank backing
    bitmap of the grid's pixel size if it had none. *)
Theorem unknown_type_only_allocates_backing l :
  isTileLayer l = false ->
  isObjectLayer l = false ->
  isImageLayer l = false ->
  exists l',
    renderLayer E l = (Done tt, l') /\
    _tilingSprite l' = _tilingSprite l /\
    sprites l' = sprites l /\
    children l' = children l /\
    bitmap l' = bitmap l /\
    config l' = config l /\
    _layerBitmap l' =
      Some (match _layerBitmap l with
            | Some bm => bm
            | None => new_Bitmap (gridHorz l * tileWidth l)
                                 (gridVert l * tileHeight l)
            end).
Proof.
  intros Htile Hobj Himg. exists (ensure_backing l).
  by rewrite renderLayer_dispatch, Hobj, Htile, Himg.
Qed.

(** C6 (as amended).  On a plane layer [renderLayer] wraps the image
    itself in a tiling sprite placed at (data.x, data.y) and of the size
    of the viewport, does not touch the node's content and draws nothing
    on the backing bitmap, which it has nevertheless allocated, blank, if
    the layer had none.  An image layer without parallax gets its image
    drawn once on the backing bitmap, which becomes the node's content,
    and no tiling sprite. *)
Theorem image_layer_plane_or_backing l :
  isImageLayer l = true ->
  let img := loadParserParallax E (Data.image (_data l)) 0 in
  (isPlaneLayer l = true ->
   exists l' s,
     renderLayer E l = (Done tt, l') /\
     the_tilingSprite l' = Some s /\
     sprites l' = sprites l ++ [s] /\
     ts_bitmap s = Some (ImageRef img) /\
     ts_x s = Data.x (_data l) /\ ts_y s = Data.y (_data l) /\
     ts_width s = Graphics_width E /\ ts_height s = Graphics_height E /\
     bitmap l' = bitmap l /\
     _layerBitmap l' =
       Some (match _layerBitmap l with
             | Some bm => bm
             | None => new_Bitmap (gridHorz l * tileWidth l)
                                  (gridVert l * tileHeight l)
             end)) /\
  (isPlaneLayer l = false ->
   exists l',
     renderLayer E l = (Done tt, l') /\
     _layerBitmap l' = Some (blt (backing_bitmap l) (image_blit E l)) /\
     bitmap l' = Some LayerBitmapRef /\
     _tilingSprite l' = _tilingSprite l /\
     sprites l' = sprites l).
Proof.
  intros Himg img.
  destruct (image_layer_only l Himg) as (Htile & Hobj).
  split; intros Hplane.
  - exists (attach_tilingSprite (plane_sprite E l) (ensure_backing l)),
      (plane_sprite E l).
    rewrite renderLayer_dispatch, Hobj, Htile, Himg, Hplane.
    split; [by rewrite renderPlaneLayer_run|].
    split; [apply the_tilingSprite_attach|done].
  - rewrite renderLayer_dispatch, Hobj, Htile, Himg, Hplane.
    rewrite (renderImageLayer_run _ (backing_bitmap l)) by done.
    by eexists.
Qed.

End Rendering.

(** ** References into the sprites

    [_tilingSprite] is a position in [sprites]; the constructor and the
    public methods never leave it pointing outside, which is what makes
    the model of object references sound. *)

Section References.

Context {T : Type} `{TilesetOps T}.
Variable E : Ambient.

Implicit Types (l : Layer T) (s : TilingSprite).

Lemma wf_initialize (data : Data.t) (tss : list T) (tw th : Z) :
  wf_refs (initialize data tss tw th).
Proof. by intros r. Qed.

Lemma wf_drawn blits l : wf_refs l -> wf_refs (drawn blits l).
Proof. done. Qed.

Lemma wf_attach s l : wf_refs (attach_tilingSprite s l).
Proof. intros r [= <-]. simpl. rewrite length_app. simpl. lia. Qed.

Lemma wf_with_sprite r s l : wf_refs l -> wf_refs (with_sprite r s l).
Proof. intros Hwf r' Hr'. simpl. rewrite length_insert. by apply Hwf. Qed.

Lemma keeps_refs_pass (pass : M (Layer T) unit) :
  only_draws pass -> keeps_refs (pass ;; _renderLoopLayer E).
Proof.
  intros Hpass l o l' Hwf. unfold bind.
  destruct (pass l) as [[[]|e] l1] eqn:Hrun.
  - destruct (Hpass _ _ _ Hrun) as [blits ->].
    destruct (_layerBitmap l) as [bm|] eqn:Hbm.
    + rewrite (renderLoopLayer_run E _ (add_blits bm blits)).
      * intros [= _ <-]. apply wf_attach.
      * unfold drawn; simpl. by rewrite Hbm.
    + unfold _renderLoopLayer, layerBitmap_field, create_tilingSprite,
        update_tilingSprite, addChild_tilingSprite, isLoopHorizontal,
        isLoopVertical.
      destruct (gameMap_isLoopHorizontal E), (gameMap_isLoopVertical E);
        run; rewrite Hbm; simpl; intros [= _ <-]; try done.
      intros r [= <-]. simpl. rewrite length_alter, length_app. simpl. lia.
  - intros [= _ <-]. destruct (Hpass _ _ _ Hrun) as [blits ->]. done.
Qed.

Lemma keeps_refs_renderLayer : keeps_refs (renderLayer E).
Proof.
  intros l o l' Hwf. rewrite renderLayer_dispatch.
  assert (Hwf0 : wf_refs (ensure_backing l)) by done.
  destruct (isObjectLayer l).
  { destruct (objectsData l) as [objects|] eqn:Hobjects.
    - rewrite (renderObjectLayer_run E _ objects) by done.
      by apply (keeps_refs_pass _ (only_draws_object_loop objects)).
    - unfold _renderObjectLayer, bind, get, throw, objectsData; simpl.
      unfold objectsData in Hobjects. rewrite Hobjects. by intros [= _ <-]. }
  destruct (isTileLayer l).
  { destruct (tilesData l) as [tiles|] eqn:Htiles.
    - rewrite (renderTileLayer_run E _ tiles) by done.
      by apply (keeps_refs_pass _ (only_draws_tile_loop tiles 0)).
    - unfold _renderTileLayer, bind, get, throw, tilesData; simpl.
      unfold tilesData in Htiles. rewrite Htiles. by intros [= _ <-]. }
  destruct (isImageLayer l); [|by intros [= _ <-]].
  destruct (isPlaneLayer l).
  - rewrite renderPlaneLayer_run. intros [= _ <-]. apply wf_attach.
  - rewrite (renderImageLayer_run E _ (backing_bitmap l)) by done.
    by intros [= _ <-].
Qed.

Lemma keeps_refs_update : keeps_refs (update (T := T)).
Proof.
  intros l o l' Hwf.
  destruct (_tilingSprite l) as [r|] eqn:Hr.
  - destruct (lookup_lt_is_Some_2 (sprites l) r (Hwf r Hr)) as [s Hs].
    destruct (ts_bitmap s ≫= bitmap_size l) as [[mOx mOy]|] eqn:Hsize.
    + rewrite (update_run l r s mOx mOy) by done.
      intros [= _ <-]. by apply wf_with_sprite.
    + unfold update, _updatePlane, the_tilingSprite.
      unfold bind at 1, get at 1. cbv zeta.
      rewrite Hr; simpl. rewrite Hs, Hsize. by intros [= _ <-].
  - rewrite update_null by done. by intros [= _ <-].
Qed.

Lemma keeps_refs_moveLoopLayer (x y : Js.num) :
  keeps_refs (moveLoopLayer (T := T) x y).
Proof.
  intros l o l' Hwf.
  destruct (_tilingSprite l) as [r|] eqn:Hr.
  - destruct (lookup_lt_is_Some_2 (sprites l) r (Hwf r Hr)) as [s Hs].
    rewrite (moveLoopLayer_run l r s) by done.
    intros [= _ <-] r' Hr'. simpl. rewrite length_alter. by apply Hwf.
  - rewrite moveLoopLayer_null by done. by intros [= _ <-].
Qed.

End References.

(** ** The statements on concrete layers *)

Module Checks.

Import Fixtures.

(** C1, on a map that does not loop: the tile layer is wrapped all the
    same and the node gets no content. *)
Lemma wrapped_regardless_witness :
  isLoop plain_map tile_layer = false /\
  exists bm,
    _layerBitmap (rendered plain_map tile_layer) = Some bm /\
    the_tilingSprite (rendered plain_map tile_layer)
      = Some (loop_sprite plain_map bm) /\
    sprites (rendered plain_map tile_layer)
      = sprites tile_layer ++ [loop_sprite plain_map bm] /\
    _tilingSprite (rendered plain_map tile_layer)
      = Some (length (sprites tile_layer)) /\
    bitmap (rendered plain_map tile_layer) = bitmap tile_layer.
Proof.
  split; [reflexivity|].
  apply (tile_and_object_layers_wrapped_regardless plain_map tile_layer).
  - left. reflexivity.
  - vm_compute. reflexivity.
Defined.

(** C2, on the 3 x 2 tile layer [1; 0; 70; 0; 0; 9] with 48-pixel
    tiles: three block transfers, to (0, 0), (96, 0) and (96, 48). *)
Lemma tile_pass_witness :
  exists l',
    renderLayer plain_map tile_layer = (Done tt, l') /\
    _layerBitmap l' =
      Some (add_blits (backing_bitmap tile_layer)
              [ getBlockTransferParams outdoor 1 (Js.Fin 0) (Js.Fin 0);
                getBlockTransferParams indoor 70 (Js.Fin 96) (Js.Fin 0);
                getBlockTransferParams outdoor 9 (Js.Fin 96) (Js.Fin 48) ]).
Proof.
  destruct (tile_pass_draws_row_major plain_map tile_layer 3
              [1; 0; 70; 0; 0; 9])
    as (_ & _ & Hblits); try reflexivity.
  apply Hblits. repeat constructor.
Defined.

(** C3, on the object layer of the fixtures: the object at
    (10.5, 50.4) of height 20.2 is drawn at (11, 30), the one with gid 0
    is not drawn, the one at (96, 144) of height 48 is drawn at (96, 96)
    and the one at (2.5, 0.7) of height 0.2 at (3, 0). *)
Lemma object_pass_witness :
  exists l',
    renderLayer plain_map object_layer = (Done tt, l') /\
    _layerBitmap l' =
      Some (add_blits (backing_bitmap object_layer)
              [ getBlockTransferParams outdoor 5 (Js.Fin 11) (Js.Fin 30);
                getBlockTransferParams indoor 66 (Js.Fin 96) (Js.Fin 96);
                getBlockTransferParams outdoor 9 (Js.Fin 3) (Js.Fin 0) ]).
Proof.
  destruct (object_pass_draws_rounded plain_map object_layer
              (default [] (objectsData object_layer)))
    as (_ & _ & Hblits & _); try reflexivity.
  apply Hblits. repeat constructor.
Defined.

(** C4, on the plane that scrolls right by 2 over an image 100 wide. *)
Lemma update_witness :
  exists l' s',
    repeat_call 60 update (rendered plain_map plane_layer) = (Done tt, l') /\
    the_tilingSprite l' = Some s' /\
    origin_x s' = Js.Fin 20 /\
    origin_y s' = origin_y clouds_sprite.
Proof.
  destruct (update_scrolls_by_signed_remainder
              (rendered plain_map plane_layer) 0 clouds_sprite 100 60)
    as [_ Hsixty]; try reflexivity.
  apply Hsixty; reflexivity.
Defined.

(** C4 as stated fails on the plane that scrolls left: after one frame
    the origin is -2, outside [0, 100). *)
Lemma leftward_plane_leaves_range :
  exists l' s',
    (renderLayer plain_map ;; update) left_plane_layer = (Done tt, l') /\
    the_tilingSprite l' = Some s' /\
    ts_bitmap s' ≫= bitmap_size l' = Some (100, 60) /\
    xSpeed left_plane_layer = Js.Fin (-2) /\
    origin_x s' = Js.Fin (-2) /\
    ~ (0 <= -2 < 100).
Proof.
  eexists _, _. split; [vm_compute; reflexivity|].
  split; [reflexivity|]. split; [reflexivity|].
  split; [reflexivity|]. split; [reflexivity|]. lia.
Qed.

(** C5, on a layer of type "group". *)
Lemma unknown_type_witness :
  exists l',
    renderLayer plain_map group_layer = (Done tt, l') /\
    _tilingSprite l' = _tilingSprite group_layer /\
    sprites l' = sprites group_layer /\
    children l' = children group_layer /\
    bitmap l' = bitmap group_layer /\
    config l' = config group_layer /\
    _layerBitmap l' = Some (new_Bitmap 144 96).
Proof.
  apply (unknown_type_only_allocates_backing plain_map group_layer);
    reflexivity.
Defined.

(** C5 as stated fails on that layer: it had no backing bitmap before
    [renderLayer] and has a blank one of 144 x 96 pixels after. *)
Lemma unknown_type_creates_backing_bitmap :
  isTileLayer group_layer = false /\
  isObjectLayer group_layer = false /\
  isImageLayer group_layer = false /\
  _layerBitmap group_layer = None /\
  _layerBitmap (rendered plain_map group_layer) = Some (new_Bitmap 144 96) /\
  ~ creates_no_surface group_layer (rendered plain_map group_layer).
Proof.
  repeat (split; [reflexivity|]). by intros [? _].
Qed.

(** C6, on the plane of the fixtures. *)
Lemma plane_witness :
  exists l' s,
    renderLayer plain_map plane_layer = (Done tt, l') /\
    the_tilingSprite l' = Some s /\
    sprites l' = sprites plane_layer ++ [s] /\
    ts_bitmap s = Some (ImageRef (image_of "Clouds" 0)) /\
    ts_x s = 16 /\ ts_y s = 32 /\ ts_width s = 816 /\ ts_height s = 624 /\
    bitmap l' = bitmap plane_layer /\
    _layerBitmap l' = Some (new_Bitmap 144 96).
Proof.
  destruct (image_layer_plane_or_backing plain_map plane_layer) as [Hplane _];
    [reflexivity|].
  apply Hplane. reflexivity.
Defined.

(** C6 as stated fails on that plane: [renderLayer] allocates its backing
    bitmap, so the field does not stay as it was. *)
Lemma plane_layer_allocates_backing_bitmap :
  isPlaneLayer plane_layer = true /\
  _layerBitmap plane_layer = None /\
  _layerBitmap (rendered plain_map plane_layer) = Some (new_Bitmap 144 96) /\
  _layerBitmap (rendered plain_map plane_layer) <> _layerBitmap plane_layer.
Proof. repeat (split; [reflexivity|]). done. Qed.

(** C7, on tile 500, which neither tileset of the fixtures contains. *)
Lemma missing_tileset_witness :
  _getTileset tile_layer 500 = None /\
  exists msg,
    _drawTile 500 (Js.Fin 0) (Js.Fin 0) tile_layer
    = (Thrown (TypeError msg), tile_layer).
Proof.
  destruct (getTileset_first_match_else_fatal tile_layer 500)
    as (_ & Hnone & Hfatal).
  assert (Hall : Forall (fun t => isInTileset t 500 = false)
                        (tilesets tile_layer)) by (by repeat constructor).
  split; [by apply Hnone|by apply Hfatal].
Defined.

(** C8, on a map that loops horizontally only: the sprite is as wide as
    the viewport and as high as the backing bitmap. *)
Lemma loop_surface_witness :
  exists l' s,
    _renderLoopLayer ring_map (ensure_backing tile_layer) = (Done tt, l') /\
    the_tilingSprite l' = Some s /\
    ts_width s = 816 /\ ts_height s = 96.
Proof.
  destruct (loop_surface_size ring_map (ensure_backing tile_layer)
              (new_Bitmap 144 96) eq_refl)
    as (l' & s & Hrun & Hthe & _ & _ & _ & _ & Hring).
  destruct (Hring eq_refl eq_refl) as [Hw Hh].
  by exists l', s.
Defined.

(** C9, on the rendered plane: three calls are one call. *)
Lemma moveLoopLayer_witness :
  repeat_call 3 (moveLoopLayer (Js.Fin 5) (Js.Fin 7))
    (rendered plain_map plane_layer)
  = moveLoopLayer (Js.Fin 5) (Js.Fin 7) (rendered plain_map plane_layer).
Proof.
  destruct (moveLoopLayer_absolute_idempotent
              (rendered plain_map plane_layer) (Js.Fin 5) (Js.Fin 7))
    as (_ & _ & Hn).
  apply Hn. lia.
Defined.

(** C10, on the tile layer of the fixtures, whose data has no
    properties. *)
Lemma flags_witness :
  properties tile_layer = ∅ /\
  isPlaneLayer tile_layer = false /\
  isCollisionLayer tile_layer = false /\
  isRegionLayer tile_layer = false /\
  isUpperLayer tile_layer = Done false.
Proof. apply flags_false_without_properties. reflexivity. Defined.

End Checks.

(** ** The life of a layer: what every sequence of calls preserves *)

Section LifecycleFacts.

Context {T : Type} `{TilesetOps T}.
Variable E : Ambient.

Implicit Types (l : Layer T) (s : TilingSprite) (c : Call) (cs : list Call).

(** *** The shape of the state after each call *)

Lemma pass_outcome (pass : M (Layer T) unit) l bm o l' :
  only_draws pass ->
  _layerBitmap l = Some bm ->
  (pass ;; _renderLoopLayer E) l = (o, l') ->
  exists blits,
    (exists e, o = Thrown e /\ l' = drawn blits l) \/
    (o = Done tt /\
     l' = attach_tilingSprite (loop_sprite E (add_blits bm blits))
            (drawn blits l)).
Proof.
  intros Hpass Hbm. unfold bind.
  destruct (pass l) as [[[]|e] l1] eqn:Hrun;
    destruct (Hpass _ _ _ Hrun) as [blits ->].
  - rewrite (renderLoopLayer_run E _ (add_blits bm blits)).
    + intros [= <- <-]. exists blits. by right.
    + unfold drawn; simpl. by rewrite Hbm.
  - intros [= <- <-]. exists blits. left. by exists e.
Qed.

Lemma renderLayer_shape l o l' :
  renderLayer E l = (o, l') ->
  (exists e blits,
     o = Thrown e /\ (isTileLayer l = true \/ isObjectLayer l = true) /\
     l' = drawn blits (ensure_backing l)) \/
  (exists blits,
     o = Done tt /\ (isTileLayer l = true \/ isObjectLayer l = true) /\
     l' = attach_tilingSprite
            (loop_sprite E (add_blits (backing_bitmap l) blits))
            (drawn blits (ensure_backing l))) \/
  (o = Done tt /\ isPlaneLayer l = true /\
   l' = attach_tilingSprite (plane_sprite E l) (ensure_backing l)) \/
  (o = Done tt /\ isImageLayer l = true /\ isPlaneLayer l = false /\
   l' = set_bitmap (Some LayerBitmapRef)
          (drawn [image_blit E l] (ensure_backing l))) \/
  (o = Done tt /\ isTileLayer l = false /\ isObjectLayer l = false /\
   isImageLayer l = false /\ l' = ensure_backing l).
Proof.
  rewrite renderLayer_dispatch.
  assert (Hpass : forall pass : M (Layer T) unit,
    only_draws pass ->
    isTileLayer l = true \/ isObjectLayer l = true ->
    (pass ;; _renderLoopLayer E) (ensure_backing l) = (o, l') ->
    (exists e blits,
       o = Thrown e /\ (isTileLayer l = true \/ isObjectLayer l = true) /\
       l' = drawn blits (ensure_backing l)) \/
    (exists blits,
       o = Done tt /\ (isTileLayer l = true \/ isObjectLayer l = true) /\
       l' = attach_tilingSprite
              (loop_sprite E (add_blits (backing_bitmap l) blits))
              (drawn blits (ensure_backing l)))).
  { intros pass Hdraws Hkind Hrun.
    destruct (pass_outcome pass (ensure_backing l) (backing_bitmap l) o l'
                Hdraws eq_refl Hrun) as [blits [(e & -> & ->)|[-> ->]]].
    - left. by exists e, blits.
    - right. by exists blits. }
  destruct (isObjectLayer l) eqn:Hobj.
  { destruct (objectsData l) as [objects|] eqn:Hobjects.
    - rewrite (renderObjectLayer_run E _ objects) by done. intros Hrun.
      destruct (Hpass _ (only_draws_object_loop objects) (or_intror eq_refl) Hrun)
        as [?|?]; auto.
    - unfold _renderObjectLayer, bind, get, throw, objectsData; simpl.
      unfold objectsData in Hobjects. rewrite Hobjects. intros [= <- <-].
      left. eexists _, []. by rewrite drawn_nil; auto. }
  destruct (isTileLayer l) eqn:Htile.
  { destruct (tilesData l) as [tiles|] eqn:Htiles.
    - rewrite (renderTileLayer_run E _ tiles) by done. intros Hrun.
      destruct (Hpass _ (only_draws_tile_loop tiles 0) (or_introl eq_refl) Hrun)
        as [?|?]; auto.
    - unfold _renderTileLayer, bind, get, throw, tilesData; simpl.
      unfold tilesData in Htiles. rewrite Htiles. intros [= <- <-].
      left. eexists _, []. by rewrite drawn_nil; auto. }
  destruct (isImageLayer l) eqn:Himg.
  - destruct (isPlaneLayer l) eqn:Hplane.
    + rewrite renderPlaneLayer_run. intros [= <- <-].
      right; right; left. done.
    + rewrite (renderImageLayer_run E _ (backing_bitmap l)) by done.
      intros [= <- <-]. right; right; right; left. done.
  - intros [= <- <-]. right; right; right; right. done.
Qed.

Lemma update_shape l o l' :
  update l = (o, l') ->
  l' = l \/
  exists r s mOx mOy,
    _tilingSprite l = Some r /\ sprites l !! r = Some s /\
    ts_bitmap s ≫= bitmap_size l = Some (mOx, mOy) /\
    o = Done tt /\
    l' = with_sprite r
           (scrolled_to (scroll_axis (origin_x s) (xSpeed l) mOx)
                        (scroll_axis (origin_y s) (ySpeed l) mOy) s) l.
Proof.
  destruct (_tilingSprite l) as [r|] eqn:Hr.
  - destruct (sprites l !! r) as [s|] eqn:Hs.
    + destruct (ts_bitmap s ≫= bitmap_size l) as [[mOx mOy]|] eqn:Hsize.
      * rewrite (update_run l r s mOx mOy) by done. intros [= <- <-].
        right. by exists r, s, mOx, mOy.
      * unfold update, _updatePlane, the_tilingSprite.
        unfold bind at 1, get at 1. cbv zeta.
        rewrite Hr; simpl. rewrite Hs, Hsize. intros [= _ <-]. by left.
    + unfold update, _updatePlane, the_tilingSprite.
      unfold bind at 1, get at 1. cbv zeta.
      rewrite Hr; simpl. rewrite Hs. intros [= _ <-]. by left.
  - rewrite update_null by done. intros [= _ <-]. by left.
Qed.

Lemma moveLoopLayer_shape l (x y : Js.num) o l' :
  moveLoopLayer x y l = (o, l') ->
  o = Done tt /\
  (l' = l \/
   exists r s,
     _tilingSprite l = Some r /\ sprites l !! r = Some s /\
     l' = with_sprite r (scrolled_to x y s) l).
Proof.
  destruct (_tilingSprite l) as [r|] eqn:Hr.
  - destruct (sprites l !! r) as [s|] eqn:Hs.
    + rewrite (moveLoopLayer_run l r s) by done. intros [= <- <-].
      split; [done|]. right. exists r, s.
      unfold with_sprite. by rewrite (alter_insert _ r s).
    + unfold moveLoopLayer, the_tilingSprite; run.
      rewrite Hr; simpl. rewrite Hs. intros [= <- <-]. auto.
  - rewrite moveLoopLayer_null by done. intros [= <- <-]. auto.
Qed.

Lemma data_setter_run (data : Data.t) l :
  data_setter data l =
    (Done tt,
     set_gridVert_field (Data.height data)
       (set_gridHorz_field (Data.width data) (set_data_field data l))).
Proof. done. Qed.

(** *** Consistency of the object graph *)

Lemma well_formed_initialize (data : Data.t) (tss : list T) (tw th : Z) :
  well_formed (initialize data tss tw th).
Proof.
  split; [done|]. split; [apply Forall_nil_2|]. by intros b.
Qed.

(** A state with the same sprites, children and content, and a backing
    bitmap if there was one, is as consistent. *)
Lemma well_formed_same l l' :
  sprites l' = sprites l ->
  children l' = children l ->
  _tilingSprite l' = _tilingSprite l ->
  bitmap l' = bitmap l ->
  (is_Some (_layerBitmap l) -> is_Some (_layerBitmap l')) ->
  well_formed l -> well_formed l'.
Proof.
  intros Hss Hcs Hr Hb Hbm ((Hchildren & Hnewest) & Htex & Hcontent).
  split; [|split].
  - unfold sprites_attached. by rewrite Hss, Hcs, Hr.
  - unfold textures_present in *. rewrite Hss.
    eapply Forall_impl; [exact Htex|].
    intros s (b & Hb' & Hsize). exists b. split; [done|].
    destruct b; [|done]. simpl in *.
    destruct (_layerBitmap l) as [bm|]; [|by destruct Hsize].
    destruct (Hbm (mk_is_Some _ _ eq_refl)) as [bm' ->]. done.
  - intros b. rewrite Hb. intros Hb'.
    destruct (Hcontent b Hb') as [-> Hsome]. auto.
Qed.

Lemma well_formed_attach s l b :
  ts_bitmap s = Some b ->
  is_Some (bitmap_size l b) ->
  well_formed l -> well_formed (attach_tilingSprite s l).
Proof.
  intros Hb Hsize ((Hchildren & Hnewest) & Htex & Hcontent).
  split; [|split].
  - unfold sprites_attached; simpl.
    rewrite length_app, Nat.add_1_r, seq_S, Hchildren. done.
  - unfold textures_present; simpl. apply Forall_app. split.
    + eapply Forall_impl; [exact Htex|]. by intros s' (b' & ? & ?); exists b'.
    + apply Forall_singleton. by exists b.
  - done.
Qed.

Lemma well_formed_with_sprite (r : nat) s s' l :
  sprites l !! r = Some s ->
  ts_bitmap s' = ts_bitmap s ->
  well_formed l -> well_formed (with_sprite r s' l).
Proof.
  intros Hs Hb ((Hchildren & Hnewest) & Htex & Hcontent).
  split; [|split].
  - unfold sprites_attached; simpl. by rewrite length_insert.
  - unfold textures_present in *; simpl.
    apply Forall_insert; [|by rewrite Hb; apply (Forall_lookup_1 _ _ _ _ Htex Hs)].
    eapply Forall_impl; [exact Htex|]. by intros s0 (b' & ? & ?); exists b'.
  - done.
Qed.

Lemma well_formed_call c l : well_formed l -> well_formed (call E c l).2.
Proof.
  intros Hwf. destruct c as [| |x y|data]; simpl.
  - destruct (renderLayer E l) as [o l'] eqn:Hrun. simpl.
    assert (Hwf0 : forall blits, well_formed (drawn blits (ensure_backing l))).
    { intros blits. by apply (well_formed_same l). }
    destruct (renderLayer_shape l o l' Hrun)
      as [(e & blits & _ & _ & ->)
         |[(blits & _ & _ & ->)
          |[(_ & _ & ->)|[(_ & _ & _ & ->)|(_ & _ & _ & _ & ->)]]]].
    + apply Hwf0.
    + by apply (well_formed_attach _ _ LayerBitmapRef).
    + apply (well_formed_attach _ _
               (ImageRef (loadParserParallax E (Data.image (_data l)) 0)));
        [done|done|].
      rewrite <- (drawn_nil (ensure_backing l)). apply Hwf0.
    + destruct (Hwf0 [image_blit E l]) as (Hatt & Htex & _).
      split; [done|]. split; [done|]. by intros b [= <-].
    + rewrite <- (drawn_nil (ensure_backing l)). apply Hwf0.
  - destruct (update l) as [o l'] eqn:Hrun. simpl.
    destruct (update_shape l o l' Hrun)
      as [->|(r & s & mOx & mOy & _ & Hs & _ & _ & ->)]; [done|].
    by apply (well_formed_with_sprite r s).
  - destruct (moveLoopLayer x y l) as [o l'] eqn:Hrun. simpl.
    destruct (moveLoopLayer_shape l x y o l' Hrun)
      as [_ [->|(r & s & _ & Hs & ->)]]; [done|].
    by apply (well_formed_with_sprite r s).
  - by apply (well_formed_same l).
Qed.

Lemma well_formed_run_calls cs l :
  well_formed l -> well_formed (run_calls E cs l).
Proof.
  revert l. induction cs as [|c cs IH]; intros l Hwf; [done|].
  simpl. by apply IH, well_formed_call.
Qed.

(** X2.  Whatever is called on a constructed layer, in whatever order and
    whether or not a call throws: every tiling sprite that was created is
    a child of the node, in the order of creation; [_tilingSprite] is null
    exactly when none was created and refers to the newest otherwise;
    every sprite has a texture that exists; and the node's content, if it
    has one, is the backing bitmap. *)
Theorem constructed_layer_stays_consistent
    (data : Data.t) (tss : list T) (tw th : Z) cs :
  let l := run_calls E cs (initialize data tss tw th) in
  children l = seq 0 (length (sprites l)) /\
  (_tilingSprite l = None <-> sprites l = []) /\
  (forall r, _tilingSprite l = Some r -> S r = length (sprites l)) /\
  Forall (fun s => exists b,
            ts_bitmap s = Some b /\ is_Some (bitmap_size l b)) (sprites l) /\
  (forall b, bitmap l = Some b ->
     b = LayerBitmapRef /\ is_Some (_layerBitmap l)).
Proof.
  intros l.
  destruct (well_formed_run_calls cs _ (well_formed_initialize data tss tw th))
    as ((Hchildren & Hnewest) & Htex & Hcontent).
  fold l in Hchildren, Hnewest, Htex, Hcontent.
  split; [done|]. split; [|split; [|done]].
  - rewrite Hnewest. destruct (sprites l); simpl; split; done.
  - intros r. rewrite Hnewest. destruct (length (sprites l)); [done|].
    by intros [= ->].
Qed.


(** *** The configuration *)

Lemma config_call c l :
  is_assignment c = false -> config (call E c l).2 = config l.
Proof.
  intros Hc. destruct c as [| |x y|data]; [| | |done]; simpl.
  - destruct (renderLayer E l) as [o l'] eqn:Hrun.
    by apply (keeps_renderLayer E) in Hrun.
  - destruct (update l) as [o l'] eqn:Hrun.
    by apply keeps_update in Hrun.
  - destruct (moveLoopLayer x y l) as [o l'] eqn:Hrun.
    by apply keeps_moveLoopLayer in Hrun.
Qed.

Lemma config_run_calls cs l :
  forallb (fun c => negb (is_assignment c)) cs = true ->
  config (run_calls E cs l) = config l.
Proof.
  revert l. induction cs as [|c cs IH]; intros l Hcs; [done|].
  simpl in Hcs. apply andb_prop in Hcs as [Hc Hcs].
  simpl. rewrite IH by done. apply config_call. by destruct (is_assignment c).
Qed.

(** X1.  Rendering and scrolling assign none of what the constructor set:
    after any sequence of [renderLayer], [update] and [moveLoopLayer]
    calls the data, the tilesets, the tile size, the grid size and the
    visibility flag are the constructor's.  In particular a layer whose
    data says [visible: false] stays invisible, and is rendered like any
    other. *)
Theorem rendering_keeps_configuration
    (data : Data.t) (tss : list T) (tw th : Z) cs :
  forallb (fun c => negb (is_assignment c)) cs = true ->
  let l := run_calls E cs (initialize data tss tw th) in
  _data l = data /\ tilesets l = tss /\
  tileWidth l = tw /\ tileHeight l = th /\
  gridHorz l = default 0 (Data.width data) /\
  gridVert l = default 0 (Data.height data) /\
  visible l = Data.visible data.
Proof.
  intros Hcs l.
  pose proof (config_run_calls cs (initialize data tss tw th) Hcs) as Hconfig.
  fold l in Hconfig. unfold config in Hconfig. simpl in Hconfig.
  unfold tilesets, tileWidth, tileHeight, gridHorz, gridVert.
  injection Hconfig as -> -> -> -> -> -> ->.
  by destruct (Data.visible data).
Qed.

(** *** The backing bitmap over time *)

Lemma grown_from_refl (bm : Bitmap) : grown_from bm bm.
Proof. by split; [|split]. Qed.

Lemma grown_from_trans (a b c : Bitmap) :
  grown_from a b -> grown_from b c -> grown_from a c.
Proof.
  intros (Hw1 & Hh1 & Hp1) (Hw2 & Hh2 & Hp2).
  split; [congruence|]. split; [congruence|].
  by transitivity (bmp_blits b).
Qed.

Lemma grown_from_add_blits (bm : Bitmap) (blits : list BltArgs) :
  grown_from bm (add_blits bm blits).
Proof. split; [done|]. split; [done|]. by apply prefix_app_r. Qed.

Lemma backing_bitmap_Some l bm :
  _layerBitmap l = Some bm -> backing_bitmap l = bm.
Proof. unfold backing_bitmap. by intros ->. Qed.

Lemma grown_call c l bm :
  _layerBitmap l = Some bm ->
  exists bm', _layerBitmap (call E c l).2 = Some bm' /\ grown_from bm bm'.
Proof.
  intros Hbm. destruct c as [| |x y|data]; simpl.
  - destruct (renderLayer E l) as [o l'] eqn:Hrun. simpl.
    pose proof (backing_bitmap_Some l bm Hbm) as Hback.
    destruct (renderLayer_shape l o l' Hrun)
      as [(e & blits & _ & _ & ->)
         |[(blits & _ & _ & ->)
          |[(_ & _ & ->)|[(_ & _ & _ & ->)|(_ & _ & _ & _ & ->)]]]];
      simpl; rewrite Hback; eauto using grown_from_add_blits, grown_from_refl.
  - destruct (update l) as [o l'] eqn:Hrun. simpl.
    destruct (update_shape l o l' Hrun)
      as [->|(r & s & mOx & mOy & _ & _ & _ & _ & ->)];
      simpl; eauto using grown_from_refl.
  - destruct (moveLoopLayer x y l) as [o l'] eqn:Hrun. simpl.
    destruct (moveLoopLayer_shape l x y o l' Hrun)
      as [_ [->|(r & s & _ & _ & ->)]]; simpl; eauto using grown_from_refl.
  - eauto using grown_from_refl.
Qed.

Lemma grown_run_calls cs l bm :
  _layerBitmap l = Some bm ->
  exists bm', _layerBitmap (run_calls E cs l) = Some bm' /\ grown_from bm bm'.
Proof.
  revert l bm. induction cs as [|c cs IH]; intros l bm Hbm.
  - exists bm. split; [done|apply grown_from_refl].
  - destruct (grown_call c l bm Hbm) as (bm1 & Hbm1 & Hgrown1).
    destruct (IH _ bm1 Hbm1) as (bm' & Hbm' & Hgrown').
    exists bm'. split; [done|].
    by apply (grown_from_trans bm bm1 bm').
Qed.

(** X4.  Once a layer has its backing bitmap it keeps that bitmap: no
    call, not even the assignment of other data with another grid size,
    replaces it, resizes it or clears it.  Its width and height stay what
    they were and what was drawn on it stays, later drawing coming
    after. *)
Theorem backing_bitmap_never_resized cs l bm :
  _layerBitmap l = Some bm ->
  exists bm',
    _layerBitmap (run_calls E cs l) = Some bm' /\
    bmp_width bm' = bmp_width bm /\
    bmp_height bm' = bmp_height bm /\
    bmp_blits bm `prefix_of` bmp_blits bm'.
Proof. apply grown_run_calls. Qed.

Lemma backing_sized_call c l :
  is_assignment c = false ->
  backing_sized l -> backing_sized (call E c l).2.
Proof.
  intros Hc Hsized.
  assert (Hkeep : forall l',
    config l' = config l ->
    (forall bm', _layerBitmap l' = Some bm' ->
       bmp_width bm' = bmp_width (backing_bitmap l) /\
       bmp_height bm' = bmp_height (backing_bitmap l)) ->
    backing_sized l').
  { intros l' Hconfig Hdims bm' Hbm'.
    destruct (Hdims bm' Hbm') as [-> ->].
    assert (Hgrid : gridHorz l' = gridHorz l /\ gridVert l' = gridVert l /\
                    tileWidth l' = tileWidth l /\ tileHeight l' = tileHeight l).
    { unfold gridHorz, gridVert, tileWidth, tileHeight.
      unfold config in Hconfig. by injection Hconfig as _ _ -> -> -> -> _. }
    destruct Hgrid as (-> & -> & -> & ->).
    unfold backing_bitmap. destruct (_layerBitmap l) as [bm|] eqn:Hbm; [|done].
    by apply Hsized. }
  apply Hkeep; [by apply config_call|].
  destruct c as [| |x y|data]; [| | |done]; simpl.
  - destruct (renderLayer E l) as [o l'] eqn:Hrun. simpl.
    destruct (renderLayer_shape l o l' Hrun)
      as [(e & blits & _ & _ & ->)
         |[(blits & _ & _ & ->)
          |[(_ & _ & ->)|[(_ & _ & _ & ->)|(_ & _ & _ & _ & ->)]]]];
      simpl; by intros bm' [= <-].
  - destruct (update l) as [o l'] eqn:Hrun. simpl.
    destruct (update_shape l o l' Hrun)
      as [->|(r & s & mOx & mOy & _ & _ & _ & _ & ->)]; simpl;
      intros bm' Hbm'; by rewrite (backing_bitmap_Some l bm').
  - destruct (moveLoopLayer x y l) as [o l'] eqn:Hrun. simpl.
    destruct (moveLoopLayer_shape l x y o l' Hrun)
      as [_ [->|(r & s & _ & _ & ->)]]; simpl;
      intros bm' Hbm'; by rewrite (backing_bitmap_Some l bm').
Qed.

(** X5.  On a layer that was constructed and then rendered and scrolled
    (its data not being assigned again), the backing bitmap exists as soon
    as [renderLayer] was called once, even by a call that threw, and it
    measures [width * tileWidth] by [height * tileHeight] pixels, a
    [width] or [height] missing from the data counting as 0. *)
Theorem backing_bitmap_has_grid_size
    (data : Data.t) (tss : list T) (tw th : Z) cs :
  forallb (fun c => negb (is_assignment c)) cs = true ->
  let l := run_calls E cs (initialize data tss tw th) in
  (In Render cs -> is_Some (_layerBitmap l)) /\
  (forall bm,
     _layerBitmap l = Some bm ->
     bmp_width bm = default 0 (Data.width data) * tw /\
     bmp_height bm = default 0 (Data.height data) * th).
Proof.
  intros Hcs l. split.
  - subst l. generalize (initialize data tss tw th). clear Hcs.
    induction cs as [|c cs IH]; intros l0 Hin; [done|].
    destruct Hin as [->|Hin]; [|by apply IH].
    simpl. destruct (renderLayer E l0) as [o l'] eqn:Hrun. simpl.
    assert (Hsome : is_Some (_layerBitmap l')).
    { destruct (renderLayer_shape l0 o l' Hrun)
        as [(e & blits & _ & _ & ->)
           |[(blits & _ & _ & ->)
            |[(_ & _ & ->)|[(_ & _ & _ & ->)|(_ & _ & _ & _ & ->)]]]];
        simpl; eauto. }
    destruct Hsome as [bm Hbm].
    destruct (grown_run_calls cs l' bm Hbm) as (bm' & -> & _).
    eauto.
  - assert (Hsized : backing_sized l).
    { subst l.
      assert (Hinit : backing_sized (initialize data tss tw th)) by (by intros bm).
      revert Hinit. generalize (initialize data tss tw th).
      induction cs as [|c cs IH]; intros l0 Hl0; [done|].
      simpl in Hcs. apply andb_prop in Hcs as [Hc Hcs].
      simpl. apply IH; [done|].
      apply backing_sized_call; [|done]. by destruct (is_assignment c). }
    assert (Hconfig : config l = config (initialize data tss tw th))
      by (by apply config_run_calls).
    intros bm Hbm. destruct (Hsized bm Hbm) as [-> ->].
    unfold gridHorz, gridVert, tileWidth, tileHeight.
    unfold config in Hconfig. simpl in Hconfig.
    by injection Hconfig as _ _ -> -> -> -> _.
Qed.

End LifecycleFacts.

(** ** When rendering fails, and what rendering again does *)

Section RenderOutcomes.

Context {T : Type} `{TilesetOps T}.
Variable E : Ambient.

Implicit Types (l : Layer T) (s : TilingSprite).

Lemma tile_loop_done tiles (i : Z) l bm :
  _layerBitmap l = Some bm ->
  (tile_loop i tiles l).1 = Done tt <-> Forall (resolves l) tiles.
Proof.
  revert i l bm. induction tiles as [|tileId tiles IH]; intros i l bm Hbm.
  { split; [constructor|done]. }
  cbn [tile_loop]. unfold bind at 1, get at 1. cbv zeta.
  rewrite Forall_cons. unfold resolves at 1.
  destruct (tileId =? 0) eqn:Hzero.
  - apply Z.eqb_eq in Hzero as ->.
    unfold bind at 1, ret at 1. rewrite (IH _ l bm Hbm). tauto.
  - apply Z.eqb_neq in Hzero. unfold bind at 1. rewrite drawTile_run, Hbm.
    destruct (_getTileset l tileId) as [ts|] eqn:Hts.
    + rewrite (IH _ _ (add_blits bm [getBlockTransferParams ts tileId _ _]))
        by (unfold drawn; simpl; by rewrite Hbm).
      split; [intros Hrest; split; [right; eauto|done]|by intros [_ ?]].
    + simpl. split; [done|]. intros [[?|[? [=]]] _]. done.
Qed.

Lemma object_loop_done objects l bm :
  _layerBitmap l = Some bm ->
  (object_loop objects l).1 = Done tt <->
  Forall (fun o => resolves l (Obj.gid o)) objects.
Proof.
  revert l bm. induction objects as [|o objects IH]; intros l bm Hbm.
  { split; [constructor|done]. }
  cbn [object_loop]. cbv zeta.
  rewrite Forall_cons. unfold resolves at 1.
  destruct (Obj.gid o =? 0) eqn:Hzero.
  - apply Z.eqb_eq in Hzero as ->.
    unfold bind at 1, ret at 1. rewrite (IH l bm Hbm). tauto.
  - apply Z.eqb_neq in Hzero. unfold bind at 1. rewrite drawTile_run, Hbm.
    destruct (_getTileset l (Obj.gid o)) as [ts|] eqn:Hts.
    + rewrite (IH _ (add_blits bm [getBlockTransferParams ts (Obj.gid o) _ _]))
        by (unfold drawn; simpl; by rewrite Hbm).
      split; [intros Hrest; split; [right; eauto|done]|by intros [_ ?]].
    + simpl. split; [done|]. intros [[?|[? [=]]] _]. done.
Qed.

(** After a pass that returned, the wrapping returns. *)
Lemma pass_then_wrap_done (pass : M (Layer T) unit) l bm :
  only_draws pass ->
  _layerBitmap l = Some bm ->
  ((pass ;; _renderLoopLayer E) l).1 = Done tt <-> (pass l).1 = Done tt.
Proof.
  intros Hpass Hbm. unfold bind.
  destruct (pass l) as [[[]|e] l1] eqn:Hrun; simpl; [|done].
  destruct (Hpass _ _ _ Hrun) as [blits ->].
  by rewrite (renderLoopLayer_run E _ (add_blits bm blits))
    by (unfold drawn; simpl; by rewrite Hbm).
Qed.

(** X6.  [renderLayer] throws on tile and object layers only.  On a tile
    layer it returns exactly when [data.data] is there and each of its
    entries is 0 or a tile of some tileset; on an object layer, exactly
    when [data.objects] is there and the gid of each entry is 0 or a tile
    of some tileset; on an image layer, a plane or a layer of unknown type
    it always returns. *)
Theorem renderLayer_returns_iff_tiles_resolve l :
  (renderLayer E l).1 = Done tt <->
  if isObjectLayer l then
    exists objects,
      objectsData l = Some objects /\
      Forall (fun o => resolves l (Obj.gid o)) objects
  else if isTileLayer l then
    exists tiles, tilesData l = Some tiles /\ Forall (resolves l) tiles
  else True.
Proof.
  rewrite renderLayer_dispatch.
  destruct (isObjectLayer l).
  { destruct (objectsData l) as [objects|] eqn:Hobjects.
    - rewrite (renderObjectLayer_run E _ objects) by done.
      rewrite (pass_then_wrap_done _ _ (backing_bitmap l))
        by (done || apply only_draws_object_loop).
      rewrite (object_loop_done _ _ (backing_bitmap l)) by done.
      split; [by exists objects|by intros (? & [= <-] & ?)].
    - unfold _renderObjectLayer, bind, get, throw, objectsData; simpl.
      unfold objectsData in Hobjects. rewrite Hobjects. simpl.
      split; [done|by intros (? & [=] & _)]. }
  destruct (isTileLayer l).
  { destruct (tilesData l) as [tiles|] eqn:Htiles.
    - rewrite (renderTileLayer_run E _ tiles) by done.
      rewrite (pass_then_wrap_done _ _ (backing_bitmap l))
        by (done || apply only_draws_tile_loop).
      rewrite (tile_loop_done _ _ _ (backing_bitmap l)) by done.
      split; [by exists tiles|by intros (? & [= <-] & ?)].
    - unfold _renderTileLayer, bind, get, throw, tilesData; simpl.
      unfold tilesData in Htiles. rewrite Htiles. simpl.
      split; [done|by intros (? & [=] & _)]. }
  destruct (isImageLayer l); [|done].
  destruct (isPlaneLayer l).
  - by rewrite renderPlaneLayer_run.
  - by rewrite (renderImageLayer_run E _ (backing_bitmap l)).
Qed.

(** A pass that throws has stopped at an entry that is in no tileset:
    the state is the one the pass over the entries before it leaves. *)
Lemma tile_loop_thrown tiles (i : Z) l bm e l' :
  _layerBitmap l = Some bm ->
  tile_loop i tiles l = (Thrown e, l') ->
  exists (k : nat) (tileId : Z),
    tiles !! k = Some tileId /\ tileId <> 0 /\ _getTileset l tileId = None /\
    e = TypeError "tileset is null" /\
    tile_loop i (take k tiles) l = (Done tt, l').
Proof.
  revert i l bm. induction tiles as [|tileId tiles IH]; intros i l bm Hbm.
  { done. }
  cbn [tile_loop]. unfold bind at 1, get at 1. cbv zeta.
  destruct (tileId =? 0) eqn:Hzero.
  - unfold bind at 1, ret at 1. intros Hrun.
    destruct (IH _ l bm Hbm Hrun) as (k & tid & Hk & Hne & Hts & He & Hpre).
    exists (S k), tid. repeat (split; [done|]).
    cbn [take tile_loop]. unfold bind at 1, get at 1. cbv zeta.
    rewrite Hzero. by unfold bind at 1, ret at 1.
  - unfold bind at 1. rewrite drawTile_run, Hbm.
    destruct (_getTileset l tileId) as [ts|] eqn:Hts.
    + intros Hrun.
      eapply IH in Hrun as (k & tid & Hk & Hne & Hts' & He & Hpre);
        [|unfold drawn; simpl; by rewrite Hbm].
      exists (S k), tid. repeat (split; [done|]).
      cbn [take tile_loop]. unfold bind at 1, get at 1. cbv zeta.
      rewrite Hzero. unfold bind at 1. by rewrite drawTile_run, Hbm, Hts.
    + intros [= <- <-]. exists 0%nat, tileId.
      split; [done|]. split; [by apply Z.eqb_neq|]. done.
Qed.

Lemma object_loop_thrown objects l bm e l' :
  _layerBitmap l = Some bm ->
  object_loop objects l = (Thrown e, l') ->
  exists (k : nat) (o : Obj.t),
    objects !! k = Some o /\ Obj.gid o <> 0 /\
    _getTileset l (Obj.gid o) = None /\
    e = TypeError "tileset is null" /\
    object_loop (take k objects) l = (Done tt, l').
Proof.
  revert l bm. induction objects as [|o objects IH]; intros l bm Hbm.
  { done. }
  cbn [object_loop]. cbv zeta.
  destruct (Obj.gid o =? 0) eqn:Hzero.
  - unfold bind at 1, ret at 1. intros Hrun.
    destruct (IH l bm Hbm Hrun) as (k & o' & Hk & Hne & Hts & He & Hpre).
    exists (S k), o'. repeat (split; [done|]).
    cbn [take object_loop]. cbv zeta.
    rewrite Hzero. by unfold bind at 1, ret at 1.
  - unfold bind at 1. rewrite drawTile_run, Hbm.
    destruct (_getTileset l (Obj.gid o)) as [ts|] eqn:Hts.
    + intros Hrun.
      eapply IH in Hrun as (k & o' & Hk & Hne & Hts' & He & Hpre);
        [|unfold drawn; simpl; by rewrite Hbm].
      exists (S k), o'. repeat (split; [done|]).
      cbn [take object_loop]. cbv zeta.
      rewrite Hzero. unfold bind at 1. by rewrite drawTile_run, Hbm, Hts.
    + intros [= <- <-]. exists 0%nat, o.
      split; [done|]. split; [by apply Z.eqb_neq|]. done.
Qed.

(** Draw calls whose tiles are all in a tileset have their block
    transfers. *)
Lemma draw_params_total (draws : list Draw) l :
  Forall (fun d => is_Some (_getTileset l d.1)) draws ->
  exists blits, Forall2 (fun d b => draw_params l d = Some b) draws blits.
Proof.
  induction 1 as [|d draws [ts Hts] _ [blits IH]].
  - by exists [].
  - eexists (_ :: blits). constructor; [|done].
    unfold draw_params. by rewrite Hts.
Qed.

Lemma object_draw_params_total (draws : list ObjectDraw) l :
  Forall (fun d => is_Some (_getTileset l d.1)) draws ->
  exists blits,
    Forall2 (fun d b => object_draw_params l d = Some b) draws blits.
Proof.
  induction 1 as [|d draws [ts Hts] _ [blits IH]].
  - by exists [].
  - eexists (_ :: blits). constructor; [|done].
    unfold object_draw_params. by rewrite Hts.
Qed.

(** What a tile pass that stopped at entry [k] has drawn. *)
Lemma tile_prefix_drawn tiles (k : nat) l bm g l' :
  _layerBitmap l = Some bm ->
  _gridHorz l = Some g ->
  0 < g ->
  tile_loop 0 (take k tiles) l = (Done tt, l') ->
  exists blits,
    Forall2 (fun d b => draw_params l d = Some b)
            (spec_tile_draws g (tileWidth l) (tileHeight l) (take k tiles))
            blits /\
    l' = drawn blits l.
Proof.
  intros Hbm Hg Hpos Hrun.
  assert (Hres : Forall (resolves l) (take k tiles)).
  { apply (tile_loop_done _ 0 _ bm Hbm). by rewrite Hrun. }
  destruct (draw_params_total
              (spec_tile_draws g (tileWidth l) (tileHeight l) (take k tiles)) l)
    as [blits Hblits].
  { apply Forall_forall. intros d (i & Hi & Hne & _)%spec_tile_draws_elem.
    by destruct (Forall_lookup_1 _ _ _ _ Hres Hi) as [?|?]. }
  exists blits. split; [done|].
  assert (Hspec :
    tile_loop 0 (take k tiles) l =
      draw_calls
        (spec_tile_draws g (tileWidth l) (tileHeight l) (take k tiles)) l)
    by exact (tile_loop_spec (take k tiles) 0 l g Hg Hpos).
  rewrite Hrun, (draw_calls_run _ blits _ bm Hbm Hblits) in Hspec.
  by injection Hspec.
Qed.

(** What an object pass that stopped at entry [k] has drawn. *)
Lemma object_prefix_drawn objects (k : nat) l bm l' :
  _layerBitmap l = Some bm ->
  object_loop (take k objects) l = (Done tt, l') ->
  exists blits,
    Forall2 (fun d b => object_draw_params l d = Some b)
            (spec_object_draws (take k objects)) blits /\
    l' = drawn blits l.
Proof.
  intros Hbm Hrun.
  assert (Hres : Forall (fun o => resolves l (Obj.gid o)) (take k objects)).
  { apply (object_loop_done _ _ bm Hbm). by rewrite Hrun. }
  destruct (object_draw_params_total (spec_object_draws (take k objects)) l)
    as [blits Hblits].
  { apply Forall_forall. intros d (o & Ho & Hne & ->)%spec_object_draws_elem.
    rewrite Forall_forall in Hres. by destruct (Hres o Ho) as [?|?]. }
  exists blits. split; [done|].
  rewrite object_loop_spec in Hrun.
  rewrite (object_draw_calls_run _ blits _ bm Hbm Hblits) in Hrun.
  by injection Hrun.
Qed.

(** X7.  A [renderLayer] that throws attaches nothing: the layer has the
    tiling sprites, the children and the content it had, and the same
    configuration.  It throws on a tile or object layer only, either
    because [data.data] (or [data.objects]) is missing, and then nothing
    was drawn, or at the first entry [k] that is not 0 and in no tileset;
    the layer is then as the pass over the [k] entries before it leaves
    it: the backing bitmap exists and holds, after what it held, the
    block transfers of these entries, in order, and nothing else. *)
Theorem failed_render_attaches_nothing l e l' :
  renderLayer E l = (Thrown e, l') ->
  (sprites l' = sprites l /\
   children l' = children l /\
   _tilingSprite l' = _tilingSprite l /\
   bitmap l' = bitmap l /\
   config l' = config l /\
   exists blits, l' = drawn blits (ensure_backing l)) /\
  ((isObjectLayer l = true /\ objectsData l = None /\
    e = TypeError "this.objectsData is undefined" /\
    l' = ensure_backing l) \/
   (isObjectLayer l = true /\
    exists objects (k : nat) (o : Obj.t),
      objectsData l = Some objects /\
      objects !! k = Some o /\ Obj.gid o <> 0 /\
      _getTileset l (Obj.gid o) = None /\
      Forall (fun o' => resolves l (Obj.gid o')) (take k objects) /\
      e = TypeError "tileset is null" /\
      object_loop (take k objects) (ensure_backing l) = (Done tt, l') /\
      exists blits,
        Forall2 (fun d b => object_draw_params l d = Some b)
                (spec_object_draws (take k objects)) blits /\
        l' = drawn blits (ensure_backing l) /\
        _layerBitmap l' = Some (add_blits (backing_bitmap l) blits)) \/
   (isTileLayer l = true /\ tilesData l = None /\
    e = TypeError "this.tilesData is undefined" /\
    l' = ensure_backing l) \/
   (isTileLayer l = true /\
    exists tiles (k : nat) (tileId : Z),
      tilesData l = Some tiles /\
      tiles !! k = Some tileId /\ tileId <> 0 /\
      _getTileset l tileId = None /\
      Forall (resolves l) (take k tiles) /\
      e = TypeError "tileset is null" /\
      tile_loop 0 (take k tiles) (ensure_backing l) = (Done tt, l') /\
      forall g, _gridHorz l = Some g -> 0 < g ->
        exists blits,
          Forall2 (fun d b => draw_params l d = Some b)
                  (spec_tile_draws g (tileWidth l) (tileHeight l)
                     (take k tiles)) blits /\
          l' = drawn blits (ensure_backing l) /\
          _layerBitmap l' = Some (add_blits (backing_bitmap l) blits))).
Proof.
  intros Hrun. split.
  { destruct (renderLayer_shape E l _ l' Hrun)
      as [(e' & blits & _ & Hkind & ->)
         |[(blits & [=] & _)
          |[([=] & _)|[([=] & _)|([=] & _)]]]].
    repeat (split; [done|]). by exists blits. }
  rewrite renderLayer_dispatch in Hrun.
  assert (Hwrap : forall pass : M (Layer T) unit,
    only_draws pass ->
    (pass ;; _renderLoopLayer E) (ensure_backing l) = (Thrown e, l') ->
    pass (ensure_backing l) = (Thrown e, l')).
  { intros pass Hpass. unfold bind.
    destruct (pass (ensure_backing l)) as [[[]|e1] l1] eqn:Hp; [|done].
    destruct (Hpass _ _ _ Hp) as [blits ->].
    by rewrite (renderLoopLayer_run E _ (add_blits (backing_bitmap l) blits)). }
  destruct (isObjectLayer l) eqn:Hobj.
  { destruct (objectsData l) as [objects|] eqn:Hobjects.
    - rewrite (renderObjectLayer_run E _ objects) in Hrun by done.
      apply Hwrap in Hrun; [|apply only_draws_object_loop].
      destruct (object_loop_thrown objects (ensure_backing l)
                  (backing_bitmap l) e l' eq_refl Hrun)
        as (k & o & Hk & Hne & Hts & He & Hpre).
      right; left. split; [done|]. exists objects, k, o.
      repeat (split; [done|]).
      split.
      { apply (object_loop_done (take k objects) (ensure_backing l)
                 (backing_bitmap l) eq_refl).
        by rewrite Hpre. }
      split; [done|]. split; [done|].
      destruct (object_prefix_drawn objects k (ensure_backing l)
                  (backing_bitmap l) l' eq_refl Hpre)
        as (blits & Hblits & ->).
      exists blits. done.
    - unfold _renderObjectLayer, bind, get, throw, objectsData in Hrun;
        simpl in Hrun.
      unfold objectsData in Hobjects. rewrite Hobjects in Hrun.
      injection Hrun as <- <-. by left. }
  destruct (isTileLayer l) eqn:Htile.
  { destruct (tilesData l) as [tiles|] eqn:Htiles.
    - rewrite (renderTileLayer_run E _ tiles) in Hrun by done.
      apply Hwrap in Hrun; [|apply only_draws_tile_loop].
      destruct (tile_loop_thrown tiles 0 (ensure_backing l)
                  (backing_bitmap l) e l' eq_refl Hrun)
        as (k & tileId & Hk & Hne & Hts & He & Hpre).
      right; right; right. split; [done|]. exists tiles, k, tileId.
      repeat (split; [done|]).
      split.
      { apply (tile_loop_done (take k tiles) 0 (ensure_backing l)
                 (backing_bitmap l) eq_refl).
        by rewrite Hpre. }
      split; [done|]. split; [done|].
      intros g Hg Hpos.
      destruct (tile_prefix_drawn tiles k (ensure_backing l)
                  (backing_bitmap l) g l' eq_refl Hg Hpos Hpre)
        as (blits & Hblits & ->).
      exists blits. done.
    - unfold _renderTileLayer, bind, get, throw, tilesData in Hrun;
        simpl in Hrun.
      unfold tilesData in Htiles. rewrite Htiles in Hrun.
      injection Hrun as <- <-. by right; right; left. }
  destruct (isImageLayer l); [|done].
  destruct (isPlaneLayer l).
  - by rewrite renderPlaneLayer_run in Hrun.
  - by rewrite (renderImageLayer_run E _ (backing_bitmap l)) in Hrun.
Qed.

Lemma renderLayer_plane l :
  isPlaneLayer l = true ->
  renderLayer E l
  = (Done tt, attach_tilingSprite (plane_sprite E l) (ensure_backing l)).
Proof.
  intros Hplane. rewrite renderLayer_dispatch.
  pose proof (plane_layer_is_image l Hplane) as Himg.
  destruct (image_layer_only l Himg) as [-> ->].
  by rewrite Himg, Hplane, renderPlaneLayer_run.
Qed.

(** X8.  Rendering a plane again does not repaint it: each call of
    [renderLayer] creates one more tiling sprite over the same image, with
    its origin at (0, 0), and adds it as the last child, the sprites of
    earlier calls staying children.  After [n] calls there are [n] more
    sprites and [_tilingSprite] refers to the last, so that the scroll
    position starts again from 0. *)
Theorem rendering_a_plane_again_stacks_sprites (n : nat) l :
  isPlaneLayer l = true ->
  exists l',
    repeat_call n (renderLayer E) l = (Done tt, l') /\
    sprites l' = sprites l ++ replicate n (plane_sprite E l) /\
    children l' = children l ++ seq (length (sprites l)) n /\
    ((0 < n)%nat ->
     the_tilingSprite l' = Some (plane_sprite E l) /\
     origin_x (plane_sprite E l) = Js.Fin 0 /\
     origin_y (plane_sprite E l) = Js.Fin 0 /\
     _layerBitmap l' = Some (backing_bitmap l)).
Proof.
  revert l. induction n as [|n IH]; intros l Hplane.
  - exists l. rewrite !app_nil_r. split; [done|]. split; [done|].
    split; [done|lia].
  - cbn [repeat_call]. unfold bind. rewrite renderLayer_plane by done.
    set (l1 := attach_tilingSprite (plane_sprite E l) (ensure_backing l)).
    destruct (IH l1 Hplane) as (l' & Hrun & Hsprites & Hchildren & Hlast).
    exists l'. split; [done|].
    assert (Hs' : sprites l' = sprites l ++ replicate (S n) (plane_sprite E l)).
    { rewrite Hsprites. simpl. by rewrite <- app_assoc. }
    split; [done|]. split.
    { rewrite Hchildren. simpl. rewrite <- app_assoc, length_app. simpl.
      by rewrite Nat.add_1_r. }
    intros _. split; [|split; [done|split; [done|]]].
    + destruct n as [|n].
      * injection Hrun as <-. apply the_tilingSprite_attach.
      * by destruct Hlast as (? & _); [lia|].
    + destruct n as [|n].
      * by injection Hrun as <-.
      * by destruct Hlast as (_ & _ & _ & ?); [lia|].
Qed.

End RenderOutcomes.

(** ** Scrolling over many frames *)

Section Frames.

Context {T : Type} `{TilesetOps T}.

Implicit Types (l : Layer T) (s : TilingSprite).

Lemma with_sprite_twice (r : nat) s1 s2 l :
  with_sprite r s2 (with_sprite r s1 l) = with_sprite r s2 l.
Proof. unfold with_sprite, set_sprites; simpl. by rewrite list_insert_insert_eq. Qed.

Lemma the_tilingSprite_with_sprite (r : nat) s s' l :
  _tilingSprite l = Some r ->
  sprites l !! r = Some s ->
  the_tilingSprite (with_sprite r s' l) = Some s'.
Proof.
  intros Hr Hs. unfold the_tilingSprite; simpl. rewrite Hr; simpl.
  apply list_lookup_insert_eq. by apply lookup_lt_Some in Hs.
Qed.

(** [n] frames, one after the other: each axis goes its own way. *)
Lemma updates_run (n : nat) l r s mOx mOy :
  _tilingSprite l = Some r ->
  sprites l !! r = Some s ->
  ts_bitmap s ≫= bitmap_size l = Some (mOx, mOy) ->
  repeat_call n update l =
    (Done tt,
     with_sprite r
       (scrolled_to (axis_after n (origin_x s) (xSpeed l) mOx)
                    (axis_after n (origin_y s) (ySpeed l) mOy) s) l).
Proof.
  revert l s. induction n as [|n IH]; intros l s Hr Hs Hsize.
  - simpl. unfold ret.
    replace (scrolled_to (origin_x s) (origin_y s) s) with s by (by destruct s).
    by rewrite with_sprite_same.
  - cbn [repeat_call]. unfold bind.
    rewrite (update_run l r s mOx mOy) by done.
    set (s1 := scrolled_to _ _ s).
    rewrite (IH (with_sprite r s1 l) s1); try done.
    + rewrite with_sprite_twice. unfold axis_after.
      by rewrite !Nat.iter_succ_r.
    + simpl. apply list_lookup_insert_eq. by apply lookup_lt_Some in Hs.
Qed.

Lemma rem_step (a v m : Z) :
  0 < m -> 0 <= a * v -> Z.rem (Z.rem a m + v) m = Z.rem (a + v) m.
Proof.
  intros Hm Hsign.
  assert (Hrem : Z.rem a m + v = (a + v) + (- (a ÷ m)) * m).
  { rewrite (Z.rem_eq a m) by lia. lia. }
  rewrite Hrem. apply Z.rem_add; [lia|]. rewrite <- Hrem.
  destruct (Z_le_gt_dec 0 a) as [Ha|Ha].
  - pose proof (Z.rem_nonneg a m ltac:(lia) Ha).
    destruct (Z.eq_dec a 0) as [->|Hne]; [rewrite Z.rem_0_l by lia; nia|].
    assert (0 <= v) by nia. nia.
  - pose proof (Z.rem_nonpos a m ltac:(lia) ltac:(lia)).
    assert (v <= 0) by nia. nia.
Qed.

Lemma axis_after_from_rest (n : nat) (v m : Z) :
  0 < m ->
  axis_after n (Js.Fin 0) (Js.Fin v) m = Js.Fin (Z.rem (Z.of_nat n * v) m).
Proof.
  intros Hm. induction n as [|n IH].
  - simpl. by rewrite Z.rem_0_l by lia.
  - unfold axis_after in *. rewrite Nat.iter_succ, IH.
    unfold scroll_axis. simpl.
    destruct (v =? 0) eqn:Hv; simpl.
    + apply Z.eqb_eq in Hv as ->. by rewrite !Z.mul_0_r.
    + rewrite (proj2 (Z.eqb_neq m 0)) by lia. f_equal.
      rewrite rem_step by nia. f_equal. lia.
Qed.

Lemma axis_after_zero_size (n : nat) (o v : Js.num) :
  Js.num_truthy v = true -> axis_after (S n) o v 0 = Js.NaN.
Proof.
  intros Hv. unfold axis_after. rewrite Nat.iter_succ. unfold scroll_axis.
  rewrite Hv. by destruct (Js.add _ v).
Qed.

Lemma axis_after_NaN (n : nat) (v : Js.num) (m : Z) :
  axis_after n Js.NaN v m = Js.NaN.
Proof.
  induction n as [|n IH]; [done|].
  unfold axis_after in *. rewrite Nat.iter_succ, IH.
  unfold scroll_axis. by destruct (Js.num_truthy v).
Qed.

(** X11.  From rest, with integer speeds [vx] and [vy] of either sign over
    a bitmap of positive size, [n] calls of [update] leave the origin at
    ((n vx) rem width, (n vy) rem height), the remainders taking the sign
    of the speed; each coordinate stays strictly between minus the size
    and the size. *)
Theorem frames_from_rest (n : nat) l r s mOx mOy vx vy :
  _tilingSprite l = Some r ->
  sprites l !! r = Some s ->
  ts_bitmap s ≫= bitmap_size l = Some (mOx, mOy) ->
  0 < mOx ->
  0 < mOy ->
  origin_x s = Js.Fin 0 ->
  origin_y s = Js.Fin 0 ->
  xSpeed l = Js.Fin vx ->
  ySpeed l = Js.Fin vy ->
  exists l' s',
    repeat_call n update l = (Done tt, l') /\
    the_tilingSprite l' = Some s' /\
    origin_x s' = Js.Fin (Z.rem (Z.of_nat n * vx) mOx) /\
    origin_y s' = Js.Fin (Z.rem (Z.of_nat n * vy) mOy) /\
    - mOx < Z.rem (Z.of_nat n * vx) mOx < mOx /\
    - mOy < Z.rem (Z.of_nat n * vy) mOy < mOy.
Proof.
  intros Hr Hs Hsize Hx Hy Hox Hoy Hvx Hvy.
  eexists _, _. split; [by apply (updates_run n l r s mOx mOy)|].
  split; [by apply (the_tilingSprite_with_sprite r s)|].
  simpl. rewrite Hox, Hoy, Hvx, Hvy, !axis_after_from_rest by done.
  split; [done|]. split; [done|].
  assert (Hbound : forall a m, 0 < m -> - m < Z.rem a m < m).
  { intros a m Hm.
    assert (Z.abs (Z.rem a m) < Z.abs m) by (apply Z.rem_bound_abs; lia).
    lia. }
  split; by apply Hbound.
Qed.

(** X12.  Not-a-number is a trap.  If the bitmap of the tiling sprite
    reads 0 wide (an image that has no size yet) while planeX is set, the
    first [update] makes [origin.x] NaN; and an origin that is NaN stays
    NaN through every later [update], whatever the speed and the size.
    The same holds for y. *)
Theorem update_poisons_origin (n : nat) l r s mOx mOy :
  _tilingSprite l = Some r ->
  sprites l !! r = Some s ->
  ts_bitmap s ≫= bitmap_size l = Some (mOx, mOy) ->
  exists l' s',
    repeat_call (S n) update l = (Done tt, l') /\
    the_tilingSprite l' = Some s' /\
    (mOx = 0 -> Js.num_truthy (xSpeed l) = true -> origin_x s' = Js.NaN) /\
    (mOy = 0 -> Js.num_truthy (ySpeed l) = true -> origin_y s' = Js.NaN) /\
    (origin_x s = Js.NaN -> origin_x s' = Js.NaN) /\
    (origin_y s = Js.NaN -> origin_y s' = Js.NaN).
Proof.
  intros Hr Hs Hsize.
  eexists _, _. split; [by apply (updates_run (S n) l r s mOx mOy)|].
  split; [by apply (the_tilingSprite_with_sprite r s)|].
  cbn [scrolled_to set_origin_x set_origin_y origin_x origin_y].
  split; [|split; [|split]].
  - intros ->. apply axis_after_zero_size.
  - intros ->. apply axis_after_zero_size.
  - intros ->. apply axis_after_NaN.
  - intros ->. apply axis_after_NaN.
Qed.

(** X13.  A layer whose properties set no plane speed (planeX and planeY
    missing, not numbers, or 0) does not scroll by itself: [update]
    returns and leaves the layer exactly as it was, tiling sprite
    included. *)
Theorem update_without_speed_is_identity l r s mOx mOy :
  _tilingSprite l = Some r ->
  sprites l !! r = Some s ->
  ts_bitmap s ≫= bitmap_size l = Some (mOx, mOy) ->
  Js.num_truthy (xSpeed l) = false ->
  Js.num_truthy (ySpeed l) = false ->
  forall n : nat, repeat_call n update l = (Done tt, l).
Proof.
  intros Hr Hs Hsize Hx Hy n.
  rewrite (updates_run n l r s mOx mOy) by done.
  assert (Hstay : forall o v m,
    Js.num_truthy v = false -> axis_after n o v m = o).
  { intros o v m Hv. induction n as [|k IH]; [done|].
    unfold axis_after in *. rewrite Nat.iter_succ, IH.
    unfold scroll_axis. by rewrite Hv. }
  rewrite !Hstay by done.
  replace (scrolled_to (origin_x s) (origin_y s) s) with s by (by destruct s).
  by rewrite with_sprite_same.
Qed.

(** X14.  [update] touches the origin of the sprite [_tilingSprite] refers
    to and nothing else, however it ends: the backing bitmap, the content,
    the children and the configuration are the same, every other sprite is
    the same (a sprite left behind by an earlier rendering does not
    scroll), and the scrolled sprite keeps its texture and its frame. *)
Theorem update_only_moves_the_current_origin l o l' :
  update l = (o, l') ->
  _layerBitmap l' = _layerBitmap l /\
  bitmap l' = bitmap l /\
  children l' = children l /\
  _tilingSprite l' = _tilingSprite l /\
  config l' = config l /\
  length (sprites l') = length (sprites l) /\
  forall (i : nat) s,
    sprites l !! i = Some s ->
    exists s',
      sprites l' !! i = Some s' /\
      ts_bitmap s' = ts_bitmap s /\
      ts_x s' = ts_x s /\ ts_y s' = ts_y s /\
      ts_width s' = ts_width s /\ ts_height s' = ts_height s /\
      (_tilingSprite l <> Some i -> s' = s).
Proof.
  intros Hrun.
  destruct (update_shape l o l' Hrun)
    as [->|(r & s0 & mOx & mOy & Hr & Hs0 & _ & _ & ->)].
  - repeat (split; [done|]). intros i s Hs. by exists s.
  - simpl. repeat (split; [done|]). split; [by rewrite length_insert|].
    intros i s Hs. destruct (decide (r = i)) as [<-|Hne].
    + eexists. split.
      { apply list_lookup_insert_eq. by apply lookup_lt_Some in Hs. }
      assert (s0 = s) as -> by congruence.
      repeat (split; [done|]). by rewrite Hr.
    + exists s. split; [by rewrite list_lookup_insert_ne|done].
Qed.

(** X15.  Of two [moveLoopLayer] calls in a row the second wins: the layer
    is as if only the second had been made. *)
Theorem moveLoopLayer_last_call_wins l (x1 y1 x2 y2 : Js.num) :
  (moveLoopLayer x1 y1 ;; moveLoopLayer x2 y2) l = moveLoopLayer x2 y2 l.
Proof.
  unfold bind.
  destruct (_tilingSprite l) as [r|] eqn:Hr.
  - destruct (sprites l !! r) as [s|] eqn:Hs.
    + rewrite (moveLoopLayer_run l r s x1 y1) by done.
      rewrite (moveLoopLayer_run _ r (scrolled_to x1 y1 s)); simpl; try done.
      * rewrite list_alter_alter_eq, (moveLoopLayer_run l r s x2 y2) by done.
        by rewrite (list_alter_ext _ (scrolled_to x2 y2) _ (sprites l) r).
      * by rewrite list_lookup_alter_eq, Hs.
    + assert (Hnoop : forall x y, moveLoopLayer x y l = (Done tt, l)).
      { intros x y. unfold moveLoopLayer, the_tilingSprite; run.
        rewrite Hr; simpl. by rewrite Hs. }
      by rewrite !Hnoop.
  - by rewrite !moveLoopLayer_null.
Qed.

(** X16.  The parallax step applies to the position the map controller
    set: after [moveLoopLayer(x, y)], one [update] leaves each coordinate
    at (x + speed) % size on an axis with a speed and at the coordinate
    set on an axis without. *)
Theorem update_continues_from_moveLoopLayer l r s mOx mOy (x y : Js.num) :
  _tilingSprite l = Some r ->
  sprites l !! r = Some s ->
  ts_bitmap s ≫= bitmap_size l = Some (mOx, mOy) ->
  exists l' s',
    (moveLoopLayer x y ;; update) l = (Done tt, l') /\
    the_tilingSprite l' = Some s' /\
    origin_x s' =
      (if Js.num_truthy (xSpeed l)
       then Js.rem (Js.add x (xSpeed l)) (Js.Fin mOx) else x) /\
    origin_y s' =
      (if Js.num_truthy (ySpeed l)
       then Js.rem (Js.add y (ySpeed l)) (Js.Fin mOy) else y).
Proof.
  intros Hr Hs Hsize. unfold bind.
  rewrite (moveLoopLayer_run l r s) by done.
  rewrite (alter_insert _ r s) by done.
  fold (with_sprite r (scrolled_to x y s) l).
  rewrite (update_run _ r (scrolled_to x y s) mOx mOy); try done.
  - rewrite with_sprite_twice. eexists _, _. split; [done|].
    split; [by apply (the_tilingSprite_with_sprite r s)|done].
  - simpl. apply list_lookup_insert_eq. by apply lookup_lt_Some in Hs.
Qed.

End Frames.

(** ** Where the tiles go *)

Section Placement.

Context {T : Type} `{TilesetOps T}.
Variable E : Ambient.

Implicit Types (l : Layer T) (s : TilingSprite).

Lemma renderLayer_tile_draws l g tiles :
  isTileLayer l = true ->
  _gridHorz l = Some g ->
  0 < g ->
  tilesData l = Some tiles ->
  renderLayer E l =
    (draw_calls (spec_tile_draws g (tileWidth l) (tileHeight l) tiles) ;;
     _renderLoopLayer E) (ensure_backing l).
Proof.
  intros Htile Hg Hpos Htiles. rewrite renderLayer_dispatch.
  destruct (tile_layer_only l Htile) as (-> & _ & _). rewrite Htile.
  rewrite (renderTileLayer_run E _ tiles) by done.
  unfold bind. by rewrite (tile_loop_spec tiles 0 _ g).
Qed.

(** X9.  On a tile layer whose data has at most [width * height] entries,
    with a backing bitmap of the grid's pixel size (as [renderLayer]
    allocates it), every tile is drawn inside the backing bitmap: the
    rectangle of [tileWidth] by [tileHeight] pixels at its destination
    does not reach beyond the bitmap's width or height. *)
Theorem tiles_are_drawn_inside_the_bitmap l g h tiles :
  isTileLayer l = true ->
  _gridHorz l = Some g ->
  _gridVert l = Some h ->
  tilesData l = Some tiles ->
  0 < g ->
  Z.of_nat (length tiles) <= g * h ->
  0 <= tileWidth l ->
  0 <= tileHeight l ->
  backing_sized l ->
  exists draws,
    renderLayer E l
    = (draw_calls draws ;; _renderLoopLayer E) (ensure_backing l) /\
    bmp_width (backing_bitmap l) = g * tileWidth l /\
    bmp_height (backing_bitmap l) = h * tileHeight l /\
    Forall (in_bitmap (backing_bitmap l) (tileWidth l) (tileHeight l)) draws.
Proof.
  intros Htile Hg Hh Htiles Hpos Hlen Htw Hth Hsized.
  exists (spec_tile_draws g (tileWidth l) (tileHeight l) tiles).
  split; [by apply renderLayer_tile_draws|].
  assert (Hdims : bmp_width (backing_bitmap l) = g * tileWidth l /\
                  bmp_height (backing_bitmap l) = h * tileHeight l).
  { unfold backing_bitmap. destruct (_layerBitmap l) as [bm|] eqn:Hbm.
    - destruct (Hsized bm Hbm) as [-> ->]. unfold gridHorz, gridVert.
      by rewrite Hg, Hh.
    - unfold gridHorz, gridVert. by rewrite Hg, Hh. }
  destruct Hdims as [Hw Hhh]. split; [done|]. split; [done|].
  apply Forall_forall. intros d (i & Hi & _ & Hd)%spec_tile_draws_elem.
  apply lookup_lt_Some in Hi.
  unfold in_bitmap. rewrite Hw, Hhh, Hd. simpl.
  pose proof (Z.mod_pos_bound (Z.of_nat i) g Hpos) as Hmod.
  assert (Hdiv : 0 <= Z.of_nat i / g < h).
  { split; [apply Z.div_pos; lia|].
    apply Z.div_lt_upper_bound; lia. }
  nia.
Qed.

Lemma spec_tile_destination_inj (g tw th : Z) (i j : nat) :
  0 < g -> 0 < tw -> 0 < th ->
  spec_tile_destination g tw th i = spec_tile_destination g tw th j ->
  i = j.
Proof.
  intros Hg Htw Hth. unfold spec_tile_destination. intros [= Hx Hy].
  assert (Hmod : Z.of_nat i mod g = Z.of_nat j mod g) by nia.
  assert (Hdiv : Z.of_nat i / g = Z.of_nat j / g) by nia.
  pose proof (Z.div_mod (Z.of_nat i) g ltac:(lia)).
  pose proof (Z.div_mod (Z.of_nat j) g ltac:(lia)).
  apply Nat2Z.inj. rewrite Hmod, Hdiv in *. lia.
Qed.

Lemma draws_from_NoDup (g tw th : Z) (tiles : list Z) (k : nat) :
  0 < g -> 0 < tw -> 0 < th ->
  NoDup (snd <$>
         omap id
           (imap (fun i tileId =>
                    if tileId =? 0 then None
                    else Some (tileId,
                               spec_tile_destination g tw th (k + i)))
                 tiles)).
Proof.
  intros Hg Htw Hth. revert k.
  induction tiles as [|tileId tiles IH]; intros k; [constructor|].
  rewrite imap_cons.
  assert (Hrest :
    imap ((fun i tileId0 =>
             if tileId0 =? 0 then None
             else Some (tileId0, spec_tile_destination g tw th (k + i))) ∘ S)
         tiles
    = imap (fun i tileId0 =>
             if tileId0 =? 0 then None
             else Some (tileId0, spec_tile_destination g tw th (S k + i)))
           tiles).
  { apply imap_ext. intros i x _. simpl. by rewrite Nat.add_succ_r. }
  rewrite Hrest. clear Hrest.
  destruct (tileId =? 0); cbn [omap list_omap id]; [apply IH|].
  rewrite fmap_cons. cbn [snd]. constructor; [|apply IH].
  rewrite list_elem_of_fmap.
  intros (d & Hd & (o & (i & tileId' & -> & _)%elem_of_lookup_imap & Ho)
              %list_elem_of_omap).
  cbn beta in Ho. destruct (tileId' =? 0); [done|].
  apply (inj Some) in Ho. subst d. cbn [snd] in Hd.
  apply spec_tile_destination_inj in Hd; [lia|done..].
Qed.

(** X10.  With a positive grid width and a positive tile size, no two
    draw calls of the tile pass have the same destination: each cell of
    the grid is drawn at most once, and tiles never land on top of one
    another. *)
Theorem tiles_never_share_a_destination l g tiles :
  isTileLayer l = true ->
  _gridHorz l = Some g ->
  tilesData l = Some tiles ->
  0 < g ->
  0 < tileWidth l ->
  0 < tileHeight l ->
  exists draws,
    renderLayer E l
    = (draw_calls draws ;; _renderLoopLayer E) (ensure_backing l) /\
    NoDup (snd <$> draws).
Proof.
  intros Htile Hg Htiles Hpos Htw Hth.
  exists (spec_tile_draws g (tileWidth l) (tileHeight l) tiles).
  split; [by apply renderLayer_tile_draws|].
  apply (draws_from_NoDup g (tileWidth l) (tileHeight l) tiles 0 Hpos Htw Hth).
Qed.

End Placement.

(** ** Property flags and tile resolution, in full *)

Section Flags.

Context {T : Type} `{TilesetOps T}.

Implicit Types (l : Layer T).

(** X17.  [isUpperLayer] compares without regard to case: it is true
    exactly when the [layer] property is a string that reads "upper" once
    lowered.  It throws exactly when the property is truthy and not a
    string (a number other than 0, or [true]), for want of a
    [toLowerCase]; otherwise it is false. *)
Theorem isUpperLayer_cases l :
  let v := prop (properties l) "layer" in
  (isUpperLayer l = Done true <->
     exists s, v = Js.VStr s /\ Js.toLowerCase s = "upper") /\
  ((exists e, isUpperLayer l = Thrown e) <->
     Js.truthy v = true /\ forall s, v <> Js.VStr s) /\
  (isUpperLayer l = Done false <->
     Js.truthy v = false \/
     exists s, v = Js.VStr s /\ Js.toLowerCase s <> "upper").
Proof.
  intros v. unfold isUpperLayer. fold v.
  destruct v as [| |b|n|s]; simpl.
  - split; [|split].
    + split; [done|by intros (? & [=] & _)].
    + split; [by intros [? [=]]|by intros [[=] _]].
    + split; [by left|done].
  - split; [|split].
    + split; [done|by intros (? & [=] & _)].
    + split; [by intros [? [=]]|by intros [[=] _]].
    + split; [by left|done].
  - destruct b; (split; [|split]).
    + split; [done|by intros (? & [=] & _)].
    + split; [done|by eexists].
    + split; [done|by intros [[=]|(? & [=] & _)]].
    + split; [done|by intros (? & [=] & _)].
    + split; [by intros [? [=]]|by intros [[=] _]].
    + split; [by left|done].
  - destruct (Js.num_truthy n) eqn:Hn; (split; [|split]).
    + split; [done|by intros (? & [=] & _)].
    + split; [done|by eexists].
    + split; [done|by intros [[=]|(? & [=] & _)]].
    + split; [done|by intros (? & [=] & _)].
    + split; [by intros [? [=]]|by intros [[=] _]].
    + split; [by left|done].
  - destruct (String.eqb s "") eqn:Hempty; simpl.
    + apply String.eqb_eq in Hempty as ->. split; [|split].
      * split; [done|by intros (? & [= <-] & ?)].
      * split; [by intros [? [=]]|by intros [[=] _]].
      * split; [by left|done].
    + destruct (String.eqb (Js.toLowerCase s) "upper") eqn:Hupper.
      * apply String.eqb_eq in Hupper. split; [|split].
        -- split; [by exists s|done].
        -- split; [by intros [? [=]]|]. intros [_ Hs]. by destruct (Hs s).
        -- split; [done|]. intros [[=]|(? & [= <-] & ?)]. done.
      * apply String.eqb_neq in Hupper. split; [|split].
        -- split; [done|]. by intros (? & [= <-] & ?).
        -- split; [by intros [? [=]]|]. intros [_ Hs]. by destruct (Hs s).
        -- split; [|done]. intros _. right. by exists s.
Qed.


(** X19.  Tilesets earlier in the list shadow later ones, and adding
    tilesets at the end changes nothing for the tiles that already had
    one: a tile resolved by the list is resolved to the same tileset by
    the longer list, a tileset that does contain it; a tile the list does
    not resolve is looked up in the added tilesets alone. *)
Theorem earlier_tilesets_shadow_later l l' (extra : list T) (tileId : Z) :
  tilesets l' = tilesets l ++ extra ->
  (forall ts,
     _getTileset l tileId = Some ts ->
     _getTileset l' tileId = Some ts /\ isInTileset ts tileId = true) /\
  (_getTileset l tileId = None ->
   _getTileset l' tileId = scan_tilesets extra tileId).
Proof.
  intros Htss. unfold _getTileset. rewrite Htss. clear Htss.
  induction (tilesets l) as [|t tss IH]; simpl.
  - split; [done|done].
  - destruct (isInTileset t tileId) eqn:Hin.
    + split; [by intros ts [= <-]|done].
    + apply IH.
Qed.

End Flags.

(** ** The further statements on concrete layers *)

Module Runs.

Import Fixtures Scenes.

(** X1, on the invisible torn layer after a session of calls. *)
Lemma configuration_witness :
  visible (run_calls plain_map session torn_layer) = false /\
  gridHorz (run_calls plain_map session torn_layer) = 3 /\
  tileWidth (run_calls plain_map session torn_layer) = 48.
Proof.
  destruct (rendering_keeps_configuration plain_map torn_data
              [outdoor; indoor] 48 48 session eq_refl)
    as (_ & _ & Hw & _ & Hg & _ & Hv).
  split; [exact Hv|]. split; [exact Hg|exact Hw].
Defined.

(** X4, on a tile layer that is given other data, with another grid, and
    rendered again. *)
Lemma never_resized_witness :
  exists bm',
    _layerBitmap (run_calls plain_map [SetData torn_data; Render; Update]
                    (ensure_backing tile_layer)) = Some bm' /\
    bmp_width bm' = 144 /\ bmp_height bm' = 96 /\
    [] `prefix_of` bmp_blits bm'.
Proof.
  apply (backing_bitmap_never_resized plain_map
           [SetData torn_data; Render; Update]
           (ensure_backing tile_layer) (new_Bitmap 144 96)).
  reflexivity.
Defined.

(** X5, on the plane after a session. *)
Lemma grid_size_witness :
  (In Render session ->
   is_Some (_layerBitmap (run_calls plain_map session plane_layer))) /\
  (forall bm,
     _layerBitmap (run_calls plain_map session plane_layer) = Some bm ->
     bmp_width bm = 3 * 48 /\ bmp_height bm = 2 * 48).
Proof.
  apply (backing_bitmap_has_grid_size plain_map
           (layer_data "imagelayer" (Data.properties (_data plane_layer)))
           [outdoor; indoor] 48 48 session).
  reflexivity.
Defined.


(** X7, on the torn layer [1; 500; 9]: the first tile is drawn, the
    second is in no tileset and throws, the third is never reached, and
    nothing is attached. *)
Lemma failed_render_witness :
  renderLayer plain_map torn_layer
    = (Thrown (TypeError "tileset is null"), rendered plain_map torn_layer) /\
  sprites (rendered plain_map torn_layer) = [] /\
  children (rendered plain_map torn_layer) = [] /\
  bitmap (rendered plain_map torn_layer) = None /\
  _layerBitmap (rendered plain_map torn_layer)
    = Some (add_blits (new_Bitmap 144 48)
              [ getBlockTransferParams outdoor 1 (Js.Fin 0) (Js.Fin 0) ]).
Proof.
  assert (Hrun :
    renderLayer plain_map torn_layer
    = (Thrown (TypeError "tileset is null"), rendered plain_map torn_layer))
    by (vm_compute; reflexivity).
  split; [exact Hrun|].
  destruct (failed_render_attaches_nothing plain_map torn_layer _ _ Hrun)
    as [(Hs & Hc & _ & Hb & _ & _) Hcases].
  split; [exact Hs|]. split; [exact Hc|]. split; [exact Hb|].
  destruct Hcases
    as [(Hobj & _)
       |[(Hobj & _)
        |[(_ & Htiles & _)
         |(_ & tiles & k & tileId & Htiles & Hk & Hne & Hts & Hres & _ & _
             & Hdrawn)]]].
  - vm_compute in Hobj. discriminate Hobj.
  - vm_compute in Hobj. discriminate Hobj.
  - vm_compute in Htiles. discriminate Htiles.
  - vm_compute in Htiles. injection Htiles as <-.
    destruct k as [|[|[|k]]].
    + injection Hk as <-. vm_compute in Hts. discriminate Hts.
    + destruct (Hdrawn 3 eq_refl eq_refl) as (blits & Hall & _ & Hbm).
      assert (Hdraws :
        spec_tile_draws 3 (tileWidth torn_layer) (tileHeight torn_layer)
          (take 1 [1; 500; 9]) = [(1, (0, 0))]) by reflexivity.
      rewrite Hdraws in Hall.
      apply Forall2_cons_inv_l in Hall as (b & bs & Hparams & Hnil & ->).
      apply Forall2_nil_inv_l in Hnil as ->.
      vm_compute in Hparams. injection Hparams as <-.
      exact Hbm.
    + apply Forall_cons in Hres as [_ Hres].
      apply Forall_cons in Hres as [[H500|[ts H500]] _].
      * discriminate H500.
      * vm_compute in H500. discriminate H500.
    + discriminate Hk.
Defined.
(** X8, on the plane rendered twice. *)
Lemma rendered_twice_witness :
  exists l',
    repeat_call 2 (renderLayer plain_map) plane_layer = (Done tt, l') /\
    sprites l' = [clouds_sprite; clouds_sprite] /\
    children l' = [0%nat; 1%nat].
Proof.
  destruct (rendering_a_plane_again_stacks_sprites plain_map 2 plane_layer
              eq_refl)
    as (l' & Hrun & Hs & Hc & _).
  exists l'. split; [exact Hrun|]. split; [exact Hs|exact Hc].
Defined.

(** X9, on the 3 x 2 tile layer. *)
Lemma inside_the_bitmap_witness :
  exists draws,
    renderLayer plain_map tile_layer
    = (draw_calls draws ;; _renderLoopLayer plain_map)
        (ensure_backing tile_layer) /\
    bmp_width (backing_bitmap tile_layer) = 3 * 48 /\
    bmp_height (backing_bitmap tile_layer) = 2 * 48 /\
    Forall (in_bitmap (backing_bitmap tile_layer) 48 48) draws.
Proof.
  apply (tiles_are_drawn_inside_the_bitmap plain_map tile_layer 3 2
           [1; 0; 70; 0; 0; 9]); try reflexivity; try (simpl; lia).
  intros bm Hbm. discriminate Hbm.
Defined.

(** X10, on the same layer. *)
Lemma distinct_destinations_witness :
  exists draws,
    renderLayer plain_map tile_layer
    = (draw_calls draws ;; _renderLoopLayer plain_map)
        (ensure_backing tile_layer) /\
    NoDup (snd <$> draws).
Proof.
  apply (tiles_never_share_a_destination plain_map tile_layer 3
           [1; 0; 70; 0; 0; 9]); reflexivity.
Defined.

(** X11, on the plane that drifts by (-3, -7) over an image of 100 by 60:
    after 40 frames the origin is (-20, -40). *)
Lemma drifting_witness :
  exists l' s',
    repeat_call 40 update (rendered plain_map drifting_plane) = (Done tt, l') /\
    the_tilingSprite l' = Some s' /\
    origin_x s' = Js.Fin (-20) /\
    origin_y s' = Js.Fin (-40).
Proof.
  destruct (frames_from_rest 40 (rendered plain_map drifting_plane) 0
              clouds_sprite 100 60 (-3) (-7))
    as (l' & s' & Hrun & Hthe & Hx & Hy & _); try reflexivity.
  exists l', s'. split; [exact Hrun|]. split; [exact Hthe|].
  split; [exact Hx|exact Hy].
Defined.

(** X12, on the plane rendered while its image is loading. *)
Lemma poisoned_origin_witness :
  exists l' s',
    repeat_call 3 update (rendered loading_map plane_layer) = (Done tt, l') /\
    the_tilingSprite l' = Some s' /\
    origin_x s' = Js.NaN.
Proof.
  destruct (update_poisons_origin 2 (rendered loading_map plane_layer) 0
              (plane_sprite loading_map plane_layer) 0 0)
    as (l' & s' & Hrun & Hthe & Hx & _); try reflexivity.
  exists l', s'. split; [exact Hrun|]. split; [exact Hthe|].
  apply Hx; reflexivity.
Defined.

(** X13, on the rendered tile layer, which has no plane speed. *)
Lemma still_layer_witness :
  repeat_call 5 update (rendered plain_map tile_layer)
  = (Done tt, rendered plain_map tile_layer).
Proof.
  apply (update_without_speed_is_identity (rendered plain_map tile_layer) 0
           (loop_sprite plain_map
              (default (new_Bitmap 0 0)
                 (_layerBitmap (rendered plain_map tile_layer))))
           144 96); reflexivity.
Defined.

(** X14, on the plane rendered twice: the sprite of the first rendering
    is left where it was. *)
Lemma left_behind_witness :
  sprites (update (rendered plain_map (rendered plain_map plane_layer))).2
    !! 0%nat
  = Some clouds_sprite.
Proof.
  destruct (update_only_moves_the_current_origin
              (rendered plain_map (rendered plain_map plane_layer))
              (Done tt)
              (update (rendered plain_map (rendered plain_map plane_layer))).2)
    as (_ & _ & _ & _ & _ & _ & Hsprites).
  - vm_compute. reflexivity.
  - destruct (Hsprites 0%nat clouds_sprite eq_refl) as (s' & Hs' & _ & _ & _ & _ & _ & Hsame).
    rewrite Hs'. f_equal. apply Hsame. discriminate.
Defined.

(** X16, on the rendered plane moved to (95, 7): the next frame takes x to
    (95 + 2) % 100 and leaves y, whose speed is 0. *)
Lemma move_then_update_witness :
  exists l' s',
    (moveLoopLayer (Js.Fin 95) (Js.Fin 7) ;; update)
      (rendered plain_map plane_layer) = (Done tt, l') /\
    the_tilingSprite l' = Some s' /\
    origin_x s' = Js.Fin 97 /\
    origin_y s' = Js.Fin 7.
Proof.
  apply (update_continues_from_moveLoopLayer (rendered plain_map plane_layer)
           0 clouds_sprite 100 60 (Js.Fin 95) (Js.Fin 7)); reflexivity.
Defined.


(** X19, on the tile layer given one more tileset that also claims
    tile 70. *)
Lemma shadowing_witness :
  _getTileset
    (initialize (layer_data "tilelayer" None)
       ([outdoor; indoor] ++ [{| rt_image := "Dungeon_C"; rt_firstgid := 60;
                                 rt_tilecount := 64; rt_columns := 8;
                                 rt_tileWidth := 48; rt_tileHeight := 48 |}])
       48 48) 70
  = Some indoor.
Proof.
  destruct (earlier_tilesets_shadow_later tile_layer
              (initialize (layer_data "tilelayer" None)
                 ([outdoor; indoor]
                  ++ [{| rt_image := "Dungeon_C"; rt_firstgid := 60;
                         rt_tilecount := 64; rt_columns := 8;
                         rt_tileWidth := 48; rt_tileHeight := 48 |}])
                 48 48)
              [{| rt_image := "Dungeon_C"; rt_firstgid := 60;
                  rt_tilecount := 64; rt_columns := 8;
                  rt_tileWidth := 48; rt_tileHeight := 48 |}] 70 eq_refl)
    as [Hfound _].
  apply (Hfound indoor). reflexivity.
Defined.

End Runs.
